(** * shopify-shipping-csv: Shopify order export to Clickpost shipping labels

    A shallow embedding of [main.go] and a verification of its batching,
    field mapping and validation rules.

    Go values are modelled as follows.
    - [string] is a sequence of bytes: Rocq's [string], whose literals are
      read byte by byte, so a literal holding Japanese text is its UTF-8
      encoding, as in the Go source file.
    - [int] is [Z]; the program only compares and counts, nothing wraps.
    - [error] is [option string]: [None] is [nil], [Some msg] is the value
      built by [errors.New msg].
    - a pointer [*T] is [option T], [None] being the nil pointer.
    - a slice is a [list]; slice expressions that Go rejects at run time
      yield a panic. *)

From Stdlib Require Import ZArith String Ascii List Lia Bool ZifyBool.
From Stdlib Require Import DecimalString DecimalNat.
Import ListNotations.

Local Open Scope Z_scope.

(** ** Go prelude *)

(** How a Go call ends: it returns, it panics, or (for the fuel-indexed
    model of a loop) the fuel ran out before the loop was left. *)
Inductive outcome (A : Type) : Type :=
| Returned (a : A)
| Panicked
| OutOfFuel.

Arguments Returned {A} a.
Arguments Panicked {A}.
Arguments OutOfFuel {A}.

Definition error : Type := option string.

Definition ptr (A : Type) : Type := option A.

Definition len {A : Type} (s : list A) : Z := Z.of_nat (List.length s).

Definition len_string (s : string) : Z := Z.of_nat (String.length s).

(** [s[lo:]]: panics unless [0 <= lo <= len s]. *)
Definition slice_from {A : Type} (s : list A) (lo : Z) : outcome (list A) :=
  if (0 <=? lo) && (lo <=? len s)
  then Returned (skipn (Z.to_nat lo) s)
  else Panicked.

(** [s[lo:hi:max]]: panics unless [0 <= lo <= hi <= max <= cap s].  The
    capacity of a slice is at least its length and is not tracked here; the
    bound is checked against the length, which is what the one use in this
    program (under the guard [chunkSize < len items]) needs. *)
Definition slice3 {A : Type} (s : list A) (lo hi max : Z) : outcome (list A) :=
  if (0 <=? lo) && (lo <=? hi) && (hi <=? max) && (max <=? len s)
  then Returned (firstn (Z.to_nat (hi - lo)) (skipn (Z.to_nat lo) s))
  else Panicked.

Module errors.
Definition New (text : string) : error := Some text.
End errors.

(** ** unicode/utf8 (Go standard library)

    [RuneCountInString] is what the program calls; [EncodeRune] says what
    the UTF-8 text of a character is. *)

Module utf8.

Definition byte_val (c : ascii) : Z := Z.of_N (N_of_ascii c).

Definition RuneSelf : Z := 0x80.
Definition RuneError : Z := 0xFFFD.
Definition MaxRune : Z := 0x10FFFF.

Definition surrogateMin : Z := 0xD800.
Definition surrogateMax : Z := 0xDFFF.

Definition tx : Z := 0x80.
Definition t2 : Z := 0xC0.
Definition t3 : Z := 0xE0.
Definition t4 : Z := 0xF0.
Definition maskx : Z := 0x3F.

Definition rune1Max : Z := 0x7F.
Definition rune2Max : Z := 0x7FF.
Definition rune3Max : Z := 0xFFFF.

Definition locb : Z := 0x80.
Definition hicb : Z := 0xBF.

(** Entries of the [first] table: the low three bits are the width of the
    encoding, the high four bits index [acceptRanges]. *)
Definition xx : Z := 0xF1.
Definition as_ : Z := 0xF0.
Definition s1 : Z := 0x02.
Definition s2 : Z := 0x13.
Definition s3 : Z := 0x03.
Definition s4 : Z := 0x23.
Definition s5 : Z := 0x34.
Definition s6 : Z := 0x04.
Definition s7 : Z := 0x44.

(** The 256-entry table [first], row by row as in the Go source. *)
Definition first_table : list Z :=
  repeat as_ 128                       (* 0x00-0x7F *)
  ++ repeat xx 64                      (* 0x80-0xBF *)
  ++ [xx; xx] ++ repeat s1 14          (* 0xC0-0xCF *)
  ++ repeat s1 16                      (* 0xD0-0xDF *)
  ++ [s2] ++ repeat s3 12 ++ [s4; s3; s3]  (* 0xE0-0xEF *)
  ++ [s5; s6; s6; s6; s7] ++ repeat xx 11. (* 0xF0-0xFF *)

Definition first (c : Z) : Z := nth (Z.to_nat c) first_table 0.

Record acceptRange : Type := { lo : Z; hi : Z }.

(** [acceptRanges] has 16 entries; those past the fifth are zero. *)
Definition acceptRanges_table : list acceptRange :=
  [ {| lo := locb; hi := hicb |};
    {| lo := 0xA0; hi := hicb |};
    {| lo := locb; hi := 0x9F |};
    {| lo := 0x90; hi := hicb |};
    {| lo := locb; hi := 0x8F |} ].

Definition acceptRanges (i : Z) : acceptRange :=
  nth (Z.to_nat i) acceptRanges_table {| lo := 0; hi := 0 |}.

(** A byte that is not a continuation byte. *)
Definition not_cont (c : ascii) : bool :=
  (byte_val c <? locb) || (hicb <? byte_val c).

(** [RuneCountInString]: the loop [for i := 0; i < ns; n++] advances [i] by
    the width of the encoding that starts at [s[i]], or by one on a byte
    that starts no valid encoding.  The recursion is on the suffix [s[i:]].
    The branches on an exhausted suffix stand for index expressions that the
    test [i+size > ns] has already excluded. *)
Fixpoint RuneCountInString (s : string) : Z :=
  match s with
  | EmptyString => 0
  | String c0 r1 =>
    1 +
    (let c := byte_val c0 in
     if c <? RuneSelf then RuneCountInString r1 else
     let x := first c in
     if x =? xx then RuneCountInString r1 else
     let size := Z.land x 7 in
     if len_string s <? size then RuneCountInString r1 else
     let accept := acceptRanges (Z.shiftr x 4) in
     match r1 with
     | EmptyString => RuneCountInString r1
     | String c1 r2 =>
       if (byte_val c1 <? lo accept) || (hi accept <? byte_val c1)
       then RuneCountInString r1
       else if size =? 2 then RuneCountInString r2
       else
         match r2 with
         | EmptyString => RuneCountInString r1
         | String c2 r3 =>
           if not_cont c2 then RuneCountInString r1
           else if size =? 3 then RuneCountInString r3
           else
             match r3 with
             | EmptyString => RuneCountInString r1
             | String c3 r4 =>
               if not_cont c3 then RuneCountInString r1
               else RuneCountInString r4
             end
         end
     end)
  end.

(** [byte(v)]: conversion of an integer to a byte keeps the low eight
    bits. *)
Definition to_byte (v : Z) : ascii := ascii_of_N (Z.to_N (Z.land v 0xFF)).

(** [EncodeRune]/[AppendRune]: the UTF-8 encoding of a rune.  A rune out of
    range (negative, above [MaxRune], or a surrogate half) is encoded as
    [RuneError]. *)
Definition encode3 (r : Z) : string :=
  String (to_byte (Z.lor t3 (Z.shiftr r 12)))
    (String (to_byte (Z.lor tx (Z.land (Z.shiftr r 6) maskx)))
       (String (to_byte (Z.lor tx (Z.land r maskx))) EmptyString)).

Definition EncodeRune (r : Z) : string :=
  if (0 <=? r) && (r <=? rune1Max) then
    String (to_byte r) EmptyString
  else if (0 <=? r) && (r <=? rune2Max) then
    String (to_byte (Z.lor t2 (Z.shiftr r 6)))
      (String (to_byte (Z.lor tx (Z.land r maskx))) EmptyString)
  else if (r <? 0) || (MaxRune <? r)
          || ((surrogateMin <=? r) && (r <=? surrogateMax)) then
    encode3 RuneError
  else if r <=? rune3Max then
    encode3 r
  else
    String (to_byte (Z.lor t4 (Z.shiftr r 18)))
      (String (to_byte (Z.lor tx (Z.land (Z.shiftr r 12) maskx)))
         (String (to_byte (Z.lor tx (Z.land (Z.shiftr r 6) maskx)))
            (String (to_byte (Z.lor tx (Z.land r maskx))) EmptyString))).

(** [string(runes)]: the text whose characters are [runes], in UTF-8. *)
Fixpoint string_of_runes (runes : list Z) : string :=
  match runes with
  | [] => EmptyString
  | r :: rest => (EncodeRune r ++ string_of_runes rest)%string
  end.

End utf8.

(** ** The two record types *)

Module ClickpostShippingLabel.

Record t : Type := mk {
  ShippingZip : string;
  ShippingName : string;
  ShippingNameTitle : string;
  ShippingAddress1 : string;
  ShippingAddress2 : string;
  ShippingAddress3 : string;
  ShippingAddress4 : string;
  ShippingContents : string
}.

Definition is_empty (s : string) : bool := String.eqb s "".

Definition Validate (c : t) : error :=
  if is_empty (ShippingZip c) then
    errors.New "お届け先郵便番号は必須です"
  else if is_empty (ShippingName c) then
    errors.New "お届け先氏名は必須です"
  else if utf8.RuneCountInString (ShippingName c) >? 20 then
    errors.New "お届け先氏名は全角20文字までです"
  else if is_empty (ShippingAddress1 c) then
    errors.New "お届け先住所1行目は必須です"
  else if utf8.RuneCountInString (ShippingAddress1 c) >? 20 then
    errors.New "お届け先住所1行目は全角20文字までです"
  else if is_empty (ShippingAddress2 c) then
    errors.New "お届け先住所2行目は必須です"
  else if utf8.RuneCountInString (ShippingAddress2 c) >? 20 then
    errors.New "お届け先住所2行目は全角20文字までです"
  else if utf8.RuneCountInString (ShippingAddress3 c) >? 20 then
    errors.New "お届け先住所3行目は全角20文字までです"
  else if utf8.RuneCountInString (ShippingAddress4 c) >? 20 then
    errors.New "お届け先住所4行目は全角20文字までです"
  else if utf8.RuneCountInString (ShippingContents c) >? 15 then
    errors.New "内容品は全角15文字までです"
  else None.

End ClickpostShippingLabel.

Module ShopifyOrder.

Record t : Type := mk {
  Name : string;
  ShippingName : string;
  ShippingStreet : string;
  ShippingAddress1 : string;
  ShippingAddress2 : string;
  ShippingCity : string;
  ShippingZip : string;
  ShippingProvince : string
}.

(** Fields the composite literal leaves out ([ShippingAddress4]) take the
    zero value of their type, the empty string. *)
Definition ToClickpostShippingLabel (s : t) : ClickpostShippingLabel.t :=
  {| ClickpostShippingLabel.ShippingZip := ShippingZip s;
     ClickpostShippingLabel.ShippingName := ShippingName s;
     ClickpostShippingLabel.ShippingNameTitle := "様";
     ClickpostShippingLabel.ShippingAddress1 :=
       (ShippingProvince s ++ ShippingCity s)%string;
     ClickpostShippingLabel.ShippingAddress2 :=
       (ShippingStreet s ++ ShippingAddress1 s)%string;
     ClickpostShippingLabel.ShippingAddress3 := ShippingAddress2 s;
     ClickpostShippingLabel.ShippingAddress4 := "";
     ClickpostShippingLabel.ShippingContents := "サプリメント" |}.

End ShopifyOrder.

(** ** Batching *)

(** [ChunkShopifyOrders]: the [for] loop, indexed by the number of guard
    evaluations it may still perform.  [chunks] is the named result, nil at
    entry.  Both operands of the parallel assignment are evaluated on the
    old [items] before either variable is updated. *)
Fixpoint ChunkShopifyOrders_loop {A : Type} (fuel : nat)
    (items : list A) (chunkSize : Z) (chunks : list (list A))
    : outcome (list (list A)) :=
  match fuel with
  | O => OutOfFuel
  | S fuel' =>
    if chunkSize <? len items then
      match slice_from items chunkSize with
      | Returned rest =>
        match slice3 items 0 chunkSize chunkSize with
        | Returned chunk =>
          ChunkShopifyOrders_loop fuel' rest chunkSize (chunks ++ [chunk])
        | Panicked => Panicked
        | OutOfFuel => OutOfFuel
        end
      | Panicked => Panicked
      | OutOfFuel => OutOfFuel
      end
    else Returned (chunks ++ [items])
  end.

Definition ChunkShopifyOrders {A : Type} (fuel : nat)
    (items : list A) (chunkSize : Z) : outcome (list (list A)) :=
  ChunkShopifyOrders_loop fuel items chunkSize [].

(** One iteration of the loop as a relation on the loop variables
    [(items, chunks)], for a fixed [chunkSize]. *)
Inductive chunk_step {A : Type} (chunkSize : Z)
    : list A * list (list A) -> list A * list (list A) -> Prop :=
| chunk_step_intro (items rest chunk : list A) (chunks : list (list A)) :
    chunkSize < len items ->
    slice_from items chunkSize = Returned rest ->
    slice3 items 0 chunkSize chunkSize = Returned chunk ->
    chunk_step chunkSize (items, chunks) (rest, chunks ++ [chunk]).

(** ** The environment: files, the CSV library, the logger *)

Inductive text_encoding : Type := ShiftJIS.

(** What the closure given to [gocsv.SetCSVWriter] builds. *)
Record csv_writer : Type := { UseCRLF : bool; encoder : text_encoding }.

Definition newline : string := String (ascii_of_nat 10) EmptyString.

(** [fmt.Sprintf("注文番号:%s エラー:%v\n", name, err)] for a non-nil [err]
    built by [errors.New]. *)
Definition diagnostic (name reason : string) : string :=
  ("注文番号:" ++ name ++ " エラー:" ++ reason ++ newline)%string.

(** [fmt.Sprintf("clickpost-shipping-labels-%d.csv", i)] for an index
    [i >= 0]. *)
Definition label_filename (i : nat) : string :=
  ("clickpost-shipping-labels-"
   ++ NilEmpty.string_of_uint (Nat.to_uint i) ++ ".csv")%string.

(** The file system and the libraries that read and write it are outside
    the program; they are collected in an interface.  [World] is the state
    they act on, [File] an open file. *)
Record Env : Type := {
  World : Type;
  File : Type;
  os_Open : string -> World -> (File + string) * World;
  os_Create : string -> World -> (File + string) * World;
  File_Close : File -> World -> World;
  gocsv_UnmarshalFile :
    File -> World -> (list (ptr ShopifyOrder.t) * error) * World;
  gocsv_SetCSVWriter : csv_writer -> World -> World;
  gocsv_MarshalFile :
    list ClickpostShippingLabel.t -> File -> World -> error * World
}.

Section Program.

Variable E : Env.

(** The state threaded through the program: the messages handed to the
    standard logger, oldest first (the logger's own date and time prefix is
    left out), and the world. *)
Record state : Type := { log_lines : list string; world : World E }.

Definition M (A : Type) : Type := state -> outcome (A * state).

Definition ret {A : Type} (a : A) : M A := fun st => Returned (a, st).

Definition bind {A B : Type} (m : M A) (k : A -> M B) : M B :=
  fun st =>
    match m st with
    | Returned (a, st') => k a st'
    | Panicked => Panicked
    | OutOfFuel => OutOfFuel
    end.

Notation "x <- m ;; k" := (bind m (fun x => k))
  (at level 61, m at next level, right associativity).
Notation "m ;;; k" := (bind m (fun _ => k))
  (at level 61, right associativity).

Definition panic {A : Type} : M A := fun _ => Panicked.

Definition lift_world {A : Type} (f : World E -> A * World E) : M A :=
  fun st =>
    let (a, w) := f (world st) in
    Returned (a, {| log_lines := log_lines st; world := w |}).

Definition lift_outcome {A : Type} (o : outcome A) : M A :=
  fun st =>
    match o with
    | Returned a => Returned (a, st)
    | Panicked => Panicked
    | OutOfFuel => OutOfFuel
    end.

Definition log_Printf (msg : string) : M unit :=
  fun st =>
    Returned (tt, {| log_lines := log_lines st ++ [msg]; world := world st |}).

(** Calling a value-receiver method or reading a field through a pointer
    dereferences it; a nil pointer panics. *)
Definition deref {A : Type} (p : ptr A) : M A :=
  match p with
  | Some a => ret a
  | None => panic
  end.

Definition ImportShopifyOrders (filename : string)
    : M (list (ptr ShopifyOrder.t) * error) :=
  r <- lift_world (os_Open E filename) ;;
  match r with
  | inr err => ret ([], Some err)
  | inl inFile =>
    r' <- lift_world (gocsv_UnmarshalFile E inFile) ;;
    lift_world (fun w => (tt, File_Close E inFile w)) ;;;
    match snd r' with
    | Some err => ret ([], Some err)
    | None => ret (fst r', None)
    end
  end.

(** The [for _, o := range orders] loop of [ExportClickpostShippingLabels];
    [shippingLabels] is the slice built so far. *)
Fixpoint export_loop (orders : list (ptr ShopifyOrder.t))
    (shippingLabels : list ClickpostShippingLabel.t)
    : M (list ClickpostShippingLabel.t) :=
  match orders with
  | [] => ret shippingLabels
  | o :: orders' =>
    s <- deref o ;;
    let label := ShopifyOrder.ToClickpostShippingLabel s in
    match ClickpostShippingLabel.Validate label with
    | Some err =>
      log_Printf (diagnostic (ShopifyOrder.Name s) err) ;;;
      export_loop orders' shippingLabels
    | None => export_loop orders' (shippingLabels ++ [label])
    end
  end.

(** The rest of [ExportClickpostShippingLabels]: create the file, install
    the Shift_JIS CSV writer, marshal, and close the file on the way out. *)
Definition write_labels (filename : string)
    (shippingLabels : list ClickpostShippingLabel.t) : M error :=
  r <- lift_world (os_Create E filename) ;;
  match r with
  | inr err => ret (Some err)
  | inl outFile =>
    lift_world (fun w =>
      (tt, gocsv_SetCSVWriter E {| UseCRLF := true; encoder := ShiftJIS |} w)) ;;;
    e <- lift_world (gocsv_MarshalFile E shippingLabels outFile) ;;
    lift_world (fun w => (tt, File_Close E outFile w)) ;;;
    ret e
  end.

Definition ExportClickpostShippingLabels (filename : string)
    (orders : list (ptr ShopifyOrder.t)) : M error :=
  shippingLabels <- export_loop orders [] ;;
  write_labels filename shippingLabels.

Definition maxClickpostShippingLabels : Z := 40.

(** The [for i, chunkedOrders := range ...] loop of [main]. *)
Fixpoint main_loop (i : nat) (chunks : list (list (ptr ShopifyOrder.t)))
    : M unit :=
  match chunks with
  | [] => ret tt
  | chunkedOrders :: chunks' =>
    e <- ExportClickpostShippingLabels (label_filename i) chunkedOrders ;;
    match e with
    | Some _ => panic
    | None => main_loop (S i) chunks'
    end
  end.

(** [main]; [fuel] bounds the iterations of the batching loop. *)
Definition main (fuel : nat) : M unit :=
  r <- ImportShopifyOrders "shopify-orders.csv" ;;
  match snd r with
  | Some _ => panic
  | None =>
    chunks <- lift_outcome
      (ChunkShopifyOrders fuel (fst r) maxClickpostShippingLabels) ;;
    main_loop 0 chunks
  end.

End Program.

(** ** Vocabulary of the specification *)

(** [ceil_div a b] is the least [q] with [a <= q * b], for [b > 0]
    (lemma [ceil_div_spec]). *)
Definition ceil_div (a b : Z) : Z := (a + b - 1) / b.

(** [cs] cuts [items] into consecutive pieces of [n] elements: the pieces
    concatenate to [items], piece [i] is the slice [items[i*n : i*n+n]]
    (cut short at the end of [items]), and there is always at least one
    piece. *)
Definition chunking {A : Type} (n : nat) (items : list A)
    (cs : list (list A)) : Prop :=
  concat cs = items /\
  len cs = Z.max 1 (ceil_div (len items) (Z.of_nat n)) /\
  forall i : nat, (i < length cs)%nat ->
    nth i cs [] = firstn n (skipn (i * n) items).

(** Well-formed UTF-8: the second byte of a three-byte (four-byte)
    encoding must lie in the range that the first byte selects. *)
Definition second_ok3 (b0 b1 : Z) : Prop :=
  (b0 = 0xE0 /\ 0xA0 <= b1 <= 0xBF) \/
  (b0 = 0xED /\ 0x80 <= b1 <= 0x9F) \/
  (0xE1 <= b0 <= 0xEF /\ b0 <> 0xED /\ 0x80 <= b1 <= 0xBF).

Definition second_ok4 (b0 b1 : Z) : Prop :=
  (b0 = 0xF0 /\ 0x90 <= b1 <= 0xBF) \/
  (b0 = 0xF4 /\ 0x80 <= b1 <= 0x8F) \/
  (0xF1 <= b0 <= 0xF3 /\ 0x80 <= b1 <= 0xBF).

(** The validator's messages, named after the rule they report. *)
Definition err_zip_required : string := "お届け先郵便番号は必須です".
Definition err_name_required : string := "お届け先氏名は必須です".
Definition err_name_too_long : string := "お届け先氏名は全角20文字までです".
Definition err_address1_required : string := "お届け先住所1行目は必須です".
Definition err_address1_too_long : string :=
  "お届け先住所1行目は全角20文字までです".
Definition err_address2_required : string := "お届け先住所2行目は必須です".
Definition err_address2_too_long : string :=
  "お届け先住所2行目は全角20文字までです".
Definition err_address3_too_long : string :=
  "お届け先住所3行目は全角20文字までです".
Definition err_address4_too_long : string :=
  "お届け先住所4行目は全角20文字までです".
Definition err_contents_too_long : string := "内容品は全角15文字までです".

(** The validator as the specification words it: ten checks, each a
    condition that must hold and the error reported when it does not, run
    in order until one fails. *)
Definition spec_checks
    : list ((ClickpostShippingLabel.t -> bool) * string) :=
  let count := utf8.RuneCountInString in
  [ (fun c => negb (String.eqb (ClickpostShippingLabel.ShippingZip c) ""),
     err_zip_required);
    (fun c => negb (String.eqb (ClickpostShippingLabel.ShippingName c) ""),
     err_name_required);
    (fun c => count (ClickpostShippingLabel.ShippingName c) <=? 20,
     err_name_too_long);
    (fun c => negb (String.eqb (ClickpostShippingLabel.ShippingAddress1 c) ""),
     err_address1_required);
    (fun c => count (ClickpostShippingLabel.ShippingAddress1 c) <=? 20,
     err_address1_too_long);
    (fun c => negb (String.eqb (ClickpostShippingLabel.ShippingAddress2 c) ""),
     err_address2_required);
    (fun c => count (ClickpostShippingLabel.ShippingAddress2 c) <=? 20,
     err_address2_too_long);
    (fun c => count (ClickpostShippingLabel.ShippingAddress3 c) <=? 20,
     err_address3_too_long);
    (fun c => count (ClickpostShippingLabel.ShippingAddress4 c) <=? 20,
     err_address4_too_long);
    (fun c => count (ClickpostShippingLabel.ShippingContents c) <=? 15,
     err_contents_too_long) ].

Fixpoint first_failure {X : Type} (checks : list ((X -> bool) * string))
    (x : X) : error :=
  match checks with
  | [] => None
  | (holds, msg) :: rest =>
    if holds x then first_failure rest x else Some msg
  end.

(** The ten constraints as propositions. *)
Definition all_constraints (c : ClickpostShippingLabel.t) : Prop :=
  ClickpostShippingLabel.ShippingZip c <> ""%string /\
  ClickpostShippingLabel.ShippingName c <> ""%string /\
  utf8.RuneCountInString (ClickpostShippingLabel.ShippingName c) <= 20 /\
  ClickpostShippingLabel.ShippingAddress1 c <> ""%string /\
  utf8.RuneCountInString (ClickpostShippingLabel.ShippingAddress1 c) <= 20 /\
  ClickpostShippingLabel.ShippingAddress2 c <> ""%string /\
  utf8.RuneCountInString (ClickpostShippingLabel.ShippingAddress2 c) <= 20 /\
  utf8.RuneCountInString (ClickpostShippingLabel.ShippingAddress3 c) <= 20 /\
  utf8.RuneCountInString (ClickpostShippingLabel.ShippingAddress4 c) <= 20 /\
  utf8.RuneCountInString (ClickpostShippingLabel.ShippingContents c) <= 15.

(** The constraints on every field but the recipient name. *)
Definition other_fields_ok (c : ClickpostShippingLabel.t) : Prop :=
  ClickpostShippingLabel.ShippingZip c <> ""%string /\
  ClickpostShippingLabel.ShippingAddress1 c <> ""%string /\
  utf8.RuneCountInString (ClickpostShippingLabel.ShippingAddress1 c) <= 20 /\
  ClickpostShippingLabel.ShippingAddress2 c <> ""%string /\
  utf8.RuneCountInString (ClickpostShippingLabel.ShippingAddress2 c) <= 20 /\
  utf8.RuneCountInString (ClickpostShippingLabel.ShippingAddress3 c) <= 20 /\
  utf8.RuneCountInString (ClickpostShippingLabel.ShippingAddress4 c) <= 20 /\
  utf8.RuneCountInString (ClickpostShippingLabel.ShippingContents c) <= 15.


(** [suffix] ends [s]. *)
Definition has_suffix (s suffix : string) : Prop :=
  exists pre : string, s = (pre ++ suffix)%string.

(** An order whose label passes validation. *)
Definition accepts (o : ShopifyOrder.t) : bool :=
  match ClickpostShippingLabel.Validate
          (ShopifyOrder.ToClickpostShippingLabel o) with
  | None => true
  | Some _ => false
  end.

(** The labels of the accepted orders of a batch, in the order of the
    batch. *)
Definition accepted_labels (orders : list ShopifyOrder.t)
    : list ClickpostShippingLabel.t :=
  map ShopifyOrder.ToClickpostShippingLabel (filter accepts orders).

(** One diagnostic line for each rejected order of a batch, in the order
    of the batch. *)
Definition diagnostics (orders : list ShopifyOrder.t) : list string :=
  flat_map (fun o =>
    match ClickpostShippingLabel.Validate
            (ShopifyOrder.ToClickpostShippingLabel o) with
    | Some reason => [diagnostic (ShopifyOrder.Name o) reason]
    | None => []
    end) orders.

(** An environment in which no file operation fails and the importer
    yields records (no nil pointer). *)
Definition io_succeeds (E : Env) : Prop :=
  (forall f w, exists file w', os_Open E f w = (inl file, w')) /\
  (forall file w, exists orders w',
      gocsv_UnmarshalFile E file w = ((map Some orders, None), w')) /\
  (forall f w, exists file w', os_Create E f w = (inl file, w')) /\
  (forall labels file w, exists w',
      gocsv_MarshalFile E labels file w = (None, w')).

(** ** Sample data *)

Module Sample.

(** Twenty and twenty-one full-width characters. *)
Definition name20 : string := utf8.string_of_runes (repeat 0x3042 20).
Definition name21 : string := utf8.string_of_runes (repeat 0x3042 21).

Definition order_ok : ShopifyOrder.t :=
  {| ShopifyOrder.Name := "#1001";
     ShopifyOrder.ShippingName := "山田太郎";
     ShopifyOrder.ShippingStreet := "神南";
     ShopifyOrder.ShippingAddress1 := "1-2-3";
     ShopifyOrder.ShippingAddress2 := "";
     ShopifyOrder.ShippingCity := "渋谷区";
     ShopifyOrder.ShippingZip := "150-0041";
     ShopifyOrder.ShippingProvince := "東京都" |}.

Definition order_long_name : ShopifyOrder.t :=
  {| ShopifyOrder.Name := "#1002";
     ShopifyOrder.ShippingName := name21;
     ShopifyOrder.ShippingStreet := "神南";
     ShopifyOrder.ShippingAddress1 := "4-5-6";
     ShopifyOrder.ShippingAddress2 := "";
     ShopifyOrder.ShippingCity := "渋谷区";
     ShopifyOrder.ShippingZip := "150-0041";
     ShopifyOrder.ShippingProvince := "東京都" |}.

Definition order_name20 : ShopifyOrder.t :=
  {| ShopifyOrder.Name := "#1003";
     ShopifyOrder.ShippingName := name20;
     ShopifyOrder.ShippingStreet := "梅田";
     ShopifyOrder.ShippingAddress1 := "7-8";
     ShopifyOrder.ShippingAddress2 := "101号室";
     ShopifyOrder.ShippingCity := "大阪市北区";
     ShopifyOrder.ShippingZip := "530-0001";
     ShopifyOrder.ShippingProvince := "大阪府" |}.

Definition orders : list ShopifyOrder.t :=
  [order_ok; order_long_name; order_name20].

(** The order of the specification's scenario: address line 2 empty,
    province X, city Y, street Z; its address line 1 is "1-2-3". *)
Definition order_XYZ : ShopifyOrder.t :=
  {| ShopifyOrder.Name := "#1004";
     ShopifyOrder.ShippingName := "N";
     ShopifyOrder.ShippingStreet := "Z";
     ShopifyOrder.ShippingAddress1 := "1-2-3";
     ShopifyOrder.ShippingAddress2 := "";
     ShopifyOrder.ShippingCity := "Y";
     ShopifyOrder.ShippingZip := "100";
     ShopifyOrder.ShippingProvince := "X" |}.

Definition label_ok : ClickpostShippingLabel.t :=
  ShopifyOrder.ToClickpostShippingLabel order_ok.

Definition with_name (name : string) (c : ClickpostShippingLabel.t)
    : ClickpostShippingLabel.t :=
  {| ClickpostShippingLabel.ShippingZip := ClickpostShippingLabel.ShippingZip c;
     ClickpostShippingLabel.ShippingName := name;
     ClickpostShippingLabel.ShippingNameTitle :=
       ClickpostShippingLabel.ShippingNameTitle c;
     ClickpostShippingLabel.ShippingAddress1 :=
       ClickpostShippingLabel.ShippingAddress1 c;
     ClickpostShippingLabel.ShippingAddress2 :=
       ClickpostShippingLabel.ShippingAddress2 c;
     ClickpostShippingLabel.ShippingAddress3 :=
       ClickpostShippingLabel.ShippingAddress3 c;
     ClickpostShippingLabel.ShippingAddress4 :=
       ClickpostShippingLabel.ShippingAddress4 c;
     ClickpostShippingLabel.ShippingContents :=
       ClickpostShippingLabel.ShippingContents c |}.

Definition with_address2 (a : string) (c : ClickpostShippingLabel.t)
    : ClickpostShippingLabel.t :=
  {| ClickpostShippingLabel.ShippingZip := ClickpostShippingLabel.ShippingZip c;
     ClickpostShippingLabel.ShippingName :=
       ClickpostShippingLabel.ShippingName c;
     ClickpostShippingLabel.ShippingNameTitle :=
       ClickpostShippingLabel.ShippingNameTitle c;
     ClickpostShippingLabel.ShippingAddress1 :=
       ClickpostShippingLabel.ShippingAddress1 c;
     ClickpostShippingLabel.ShippingAddress2 := a;
     ClickpostShippingLabel.ShippingAddress3 :=
       ClickpostShippingLabel.ShippingAddress3 c;
     ClickpostShippingLabel.ShippingAddress4 :=
       ClickpostShippingLabel.ShippingAddress4 c;
     ClickpostShippingLabel.ShippingContents :=
       ClickpostShippingLabel.ShippingContents c |}.

(** A world that records what was marshalled into which file; nothing
    fails, and the import file holds [orders]. *)
Definition env : Env :=
  {| World := list (string * list ClickpostShippingLabel.t);
     File := string;
     os_Open := fun f w => (inl f, w);
     os_Create := fun f w => (inl f, w);
     File_Close := fun _ w => w;
     gocsv_UnmarshalFile := fun _ w => ((map Some orders, None), w);
     gocsv_SetCSVWriter := fun _ w => w;
     gocsv_MarshalFile := fun labels f w => (None, w ++ [(f, labels)]) |}.

Definition st0 : state env :=
  {| log_lines := []; world := ([] : World env) |}.

End Sample.

(** ** Further vocabulary: outcomes, a recording file system *)

(** The image of an outcome under a function on results. *)
Definition map_outcome {A B : Type} (f : A -> B) (o : outcome A) : outcome B :=
  match o with
  | Returned a => Returned (f a)
  | Panicked => Panicked
  | OutOfFuel => OutOfFuel
  end.

(** A file system that records the calls of [gocsv.MarshalFile] (oldest
    first, each with the file name and the labels), whose import file holds
    [input], and in which opening, parsing and creating fail as [faults]
    says. *)
Module Recording.

Record faults : Type := {
  open_error : error;
  unmarshal_error : error;
  create_error : error
}.

Definition no_faults : faults :=
  {| open_error := None; unmarshal_error := None; create_error := None |}.

Definition env_with (f : faults) (input : list ShopifyOrder.t) : Env :=
  {| World := list (string * list ClickpostShippingLabel.t);
     File := string;
     os_Open := fun name w =>
       match open_error f with
       | Some err => (inr err, w)
       | None => (inl name, w)
       end;
     os_Create := fun name w =>
       match create_error f with
       | Some err => (inr err, w)
       | None => (inl name, w)
       end;
     File_Close := fun _ w => w;
     gocsv_UnmarshalFile := fun _ w =>
       match unmarshal_error f with
       | Some err => (([], Some err), w)
       | None => ((map Some input, None), w)
       end;
     gocsv_SetCSVWriter := fun _ w => w;
     gocsv_MarshalFile := fun labels name w => (None, w ++ [(name, labels)]) |}.

Definition env (input : list ShopifyOrder.t) : Env := env_with no_faults input.

(** The import file is missing. *)
Definition missing_input : faults :=
  {| open_error := Some "no such file"%string;
     unmarshal_error := None; create_error := None |}.

(** The import file is not a well-formed export. *)
Definition malformed_input : faults :=
  {| open_error := None;
     unmarshal_error := Some "wrong header"%string; create_error := None |}.

(** No file can be created. *)
Definition read_only : faults :=
  {| open_error := None; unmarshal_error := None;
     create_error := Some "read-only file system"%string |}.

Definition start (f : faults) (input : list ShopifyOrder.t)
    : state (env_with f input) :=
  {| log_lines := []; world := ([] : World (env_with f input)) |}.

End Recording.

(** The files of the batches [chunks], numbered from [i]. *)
Fixpoint batch_files (i : nat) (chunks : list (list ShopifyOrder.t))
    : list (string * list ClickpostShippingLabel.t) :=
  match chunks with
  | [] => []
  | c :: chunks' =>
    (label_filename i, accepted_labels c) :: batch_files (S i) chunks'
  end.

(** The ten constraints on a transformed label, in terms of the source
    fields. *)
Definition source_constraints (o : ShopifyOrder.t) : Prop :=
  ShopifyOrder.ShippingZip o <> ""%string /\
  ShopifyOrder.ShippingName o <> ""%string /\
  utf8.RuneCountInString (ShopifyOrder.ShippingName o) <= 20 /\
  (ShopifyOrder.ShippingProvince o <> ""%string \/
   ShopifyOrder.ShippingCity o <> ""%string) /\
  utf8.RuneCountInString
    (ShopifyOrder.ShippingProvince o ++ ShopifyOrder.ShippingCity o) <= 20 /\
  (ShopifyOrder.ShippingStreet o <> ""%string \/
   ShopifyOrder.ShippingAddress1 o <> ""%string) /\
  utf8.RuneCountInString
    (ShopifyOrder.ShippingStreet o ++ ShopifyOrder.ShippingAddress1 o) <= 20 /\
  utf8.RuneCountInString (ShopifyOrder.ShippingAddress2 o) <= 20.

(** * Verification *)

(** ** UTF-8: the rune count of encoded text

    Bytes are compared as integers below 256; the bit operations of the
    encoder are turned into division and remainder by powers of two. *)

Lemma byte_val_range (c : ascii) : 0 <= utf8.byte_val c < 256.
Proof.
  unfold utf8.byte_val. pose proof (N_ascii_bounded c). lia.
Qed.

Lemma byte_val_to_byte (v : Z) :
  0 <= v < 256 -> utf8.byte_val (utf8.to_byte v) = v.
Proof.
  intros Hv. unfold utf8.byte_val, utf8.to_byte.
  change 0xFF with (Z.ones 8). rewrite Z.land_ones by lia.
  rewrite Z.mod_small by (simpl; lia).
  rewrite N_ascii_embedding by lia. lia.
Qed.

Lemma lor_disjoint (t x n : Z) :
  0 <= n -> t mod 2 ^ n = 0 -> 0 <= x < 2 ^ n -> Z.lor t x = t + x.
Proof.
  intros Hn Ht Hx.
  assert (Hland : Z.land t x = 0).
  { replace x with (Z.land (Z.ones n) x)
      by (rewrite Z.land_comm, Z.land_ones, Z.mod_small; lia).
    rewrite Z.land_assoc, (Z.land_ones t), Ht by lia.
    apply Z.land_0_l. }
  pose proof (Z.add_lor_land t x). lia.
Qed.

Example first_table_length : length utf8.first_table = 256%nat.
Proof. reflexivity. Qed.

(** The table [first] by ranges of the leading byte. *)
Lemma first_spec (c : Z) :
  0 <= c < 256 ->
  utf8.first c =
    if c <? 0x80 then utf8.as_
    else if c <? 0xC2 then utf8.xx
    else if c <? 0xE0 then utf8.s1
    else if c =? 0xE0 then utf8.s2
    else if c =? 0xED then utf8.s4
    else if c <? 0xF0 then utf8.s3
    else if c =? 0xF0 then utf8.s5
    else if c <? 0xF4 then utf8.s6
    else if c =? 0xF4 then utf8.s7
    else utf8.xx.
Proof.
  intros Hc.
  assert (Hall : forallb (fun n : nat =>
    let c := Z.of_nat n in
    utf8.first c =?
    (if c <? 0x80 then utf8.as_
    else if c <? 0xC2 then utf8.xx
    else if c <? 0xE0 then utf8.s1
    else if c =? 0xE0 then utf8.s2
    else if c =? 0xED then utf8.s4
    else if c <? 0xF0 then utf8.s3
    else if c =? 0xF0 then utf8.s5
    else if c <? 0xF4 then utf8.s6
    else if c =? 0xF4 then utf8.s7
    else utf8.xx)) (seq 0 256) = true) by (vm_compute; reflexivity).
  rewrite forallb_forall in Hall.
  specialize (Hall (Z.to_nat c)).
  cbv zeta in Hall. rewrite Z2Nat.id in Hall by lia.
  apply Z.eqb_eq, Hall, in_seq. lia.
Qed.

Lemma len_string_cons (c : ascii) (s : string) :
  len_string (String c s) = 1 + len_string s.
Proof. unfold len_string. cbn [String.length]. lia. Qed.

Lemma len_string_nonneg (s : string) : 0 <= len_string s.
Proof. unfold len_string. lia. Qed.

Ltac closed t := let v := eval vm_compute in t in change t with v.

Ltac decide_if :=
  match goal with
  | |- context [if ?b then _ else _] =>
    let E := fresh "E" in
    destruct b eqn:E;
    try (exfalso; lia)
  end.

Lemma count_1 (c0 : ascii) (s : string) :
  utf8.byte_val c0 < 0x80 ->
  utf8.RuneCountInString (String c0 s) = 1 + utf8.RuneCountInString s.
Proof.
  intros H. cbn [utf8.RuneCountInString]. cbv zeta.
  unfold utf8.RuneSelf.
  destruct (Z.ltb_spec (utf8.byte_val c0) 0x80); [reflexivity | lia].
Qed.

(** Unfolds the count on a string whose leading byte has table entry [sx]
    (hypothesis [Hx]) and decides every test of the loop body from the
    ranges in the context. *)
Ltac count_tac Hx sx :=
  cbn [utf8.RuneCountInString]; cbv zeta;
  rewrite Hx, ?len_string_cons;
  cbv beta iota;
  closed (Z.land sx 7); closed (sx =? utf8.xx);
  closed (utf8.acceptRanges (Z.shiftr sx 4));
  cbv beta iota; cbn [utf8.lo utf8.hi];
  unfold utf8.not_cont, utf8.RuneSelf, utf8.locb, utf8.hicb;
  repeat decide_if; reflexivity.

Lemma count_2 (c0 c1 : ascii) (s : string) :
  0xC2 <= utf8.byte_val c0 <= 0xDF ->
  0x80 <= utf8.byte_val c1 <= 0xBF ->
  utf8.RuneCountInString (String c0 (String c1 s))
  = 1 + utf8.RuneCountInString s.
Proof.
  intros H0 H1.
  pose proof (len_string_nonneg s).
  assert (Hx : utf8.first (utf8.byte_val c0) = utf8.s1)
    by (rewrite first_spec by lia; repeat decide_if; reflexivity).
  count_tac Hx utf8.s1.
Qed.

Lemma count_3 (c0 c1 c2 : ascii) (s : string) :
  second_ok3 (utf8.byte_val c0) (utf8.byte_val c1) ->
  0x80 <= utf8.byte_val c2 <= 0xBF ->
  utf8.RuneCountInString (String c0 (String c1 (String c2 s)))
  = 1 + utf8.RuneCountInString s.
Proof.
  intros H01 H2.
  pose proof (len_string_nonneg s).
  pose proof (byte_val_range c0) as R0.
  destruct H01 as [[E0 H1] | [[E0 H1] | (H0 & N0 & H1)]].
  - assert (Hx : utf8.first (utf8.byte_val c0) = utf8.s2)
      by (rewrite first_spec by lia; repeat decide_if; reflexivity).
    count_tac Hx utf8.s2.
  - assert (Hx : utf8.first (utf8.byte_val c0) = utf8.s4)
      by (rewrite first_spec by lia; repeat decide_if; reflexivity).
    count_tac Hx utf8.s4.
  - assert (Hx : utf8.first (utf8.byte_val c0) = utf8.s3)
      by (rewrite first_spec by lia; repeat decide_if; reflexivity).
    count_tac Hx utf8.s3.
Qed.

Lemma count_4 (c0 c1 c2 c3 : ascii) (s : string) :
  second_ok4 (utf8.byte_val c0) (utf8.byte_val c1) ->
  0x80 <= utf8.byte_val c2 <= 0xBF ->
  0x80 <= utf8.byte_val c3 <= 0xBF ->
  utf8.RuneCountInString (String c0 (String c1 (String c2 (String c3 s))))
  = 1 + utf8.RuneCountInString s.
Proof.
  intros H01 H2 H3.
  pose proof (len_string_nonneg s).
  pose proof (byte_val_range c0) as R0.
  destruct H01 as [[E0 H1] | [[E0 H1] | (H0 & H1)]].
  - assert (Hx : utf8.first (utf8.byte_val c0) = utf8.s5)
      by (rewrite first_spec by lia; repeat decide_if; reflexivity).
    count_tac Hx utf8.s5.
  - assert (Hx : utf8.first (utf8.byte_val c0) = utf8.s7)
      by (rewrite first_spec by lia; repeat decide_if; reflexivity).
    count_tac Hx utf8.s7.
  - assert (Hx : utf8.first (utf8.byte_val c0) = utf8.s6)
      by (rewrite first_spec by lia; repeat decide_if; reflexivity).
    count_tac Hx utf8.s6.
Qed.

Lemma lead_byte (t y n : Z) :
  0 <= n -> 0 <= t -> t mod 2 ^ n = 0 -> t + 2 ^ n <= 256 ->
  0 <= y < 2 ^ n ->
  utf8.byte_val (utf8.to_byte (Z.lor t y)) = t + y.
Proof.
  intros Hn Ht Hm Hb Hy.
  rewrite (lor_disjoint t y n) by assumption.
  apply byte_val_to_byte. lia.
Qed.

Lemma cont_byte (y : Z) :
  utf8.byte_val (utf8.to_byte (Z.lor utf8.tx (Z.land y utf8.maskx)))
  = 0x80 + y mod 64.
Proof.
  unfold utf8.tx, utf8.maskx.
  change 0x3F with (Z.ones 6). rewrite Z.land_ones by lia.
  change (2 ^ 6) with 64.
  pose proof (Z.mod_pos_bound y 64 ltac:(lia)).
  apply (lead_byte 0x80 (y mod 64) 6); try lia; reflexivity.
Qed.

Lemma shiftr_div (r n : Z) : 0 <= n -> Z.shiftr r n = r / 2 ^ n.
Proof. apply Z.shiftr_div_pow2. Qed.

Ltac divmod := Z.div_mod_to_equations; lia.

Lemma count_encode3 (r : Z) (s : string) :
  0x800 <= r <= 0xFFFF -> ~ (0xD800 <= r <= 0xDFFF) ->
  utf8.RuneCountInString (utf8.encode3 r ++ s)
  = 1 + utf8.RuneCountInString s.
Proof.
  intros Hr Hs. unfold utf8.encode3. cbn [append].
  rewrite !shiftr_div by lia.
  change (2 ^ 12) with 4096. change (2 ^ 6) with 64.
  apply count_3.
  - rewrite cont_byte.
    rewrite (lead_byte utf8.t3 (r / 4096) 4);
      [ | lia | unfold utf8.t3; lia | reflexivity | unfold utf8.t3; simpl; lia
        | simpl; divmod ].
    unfold second_ok3, utf8.t3. divmod.
  - rewrite cont_byte. divmod.
Qed.

Lemma count_EncodeRune (r : Z) (s : string) :
  utf8.RuneCountInString (utf8.EncodeRune r ++ s)
  = 1 + utf8.RuneCountInString s.
Proof.
  unfold utf8.EncodeRune.
  unfold utf8.rune1Max, utf8.rune2Max, utf8.rune3Max, utf8.MaxRune,
    utf8.surrogateMin, utf8.surrogateMax.
  destruct ((0 <=? r) && (r <=? 0x7F)) eqn:E1.
  { cbn [append]. apply count_1. rewrite byte_val_to_byte; lia. }
  destruct ((0 <=? r) && (r <=? 0x7FF)) eqn:E2.
  { cbn [append]. rewrite shiftr_div by lia. change (2 ^ 6) with 64.
    apply count_2.
    - rewrite (lead_byte utf8.t2 (r / 64) 5);
        [ | lia | unfold utf8.t2; lia | reflexivity | unfold utf8.t2; simpl; lia
          | simpl; divmod ].
      unfold utf8.t2. divmod.
    - rewrite cont_byte. divmod. }
  destruct ((r <? 0) || (0x10FFFF <? r)
            || ((0xD800 <=? r) && (r <=? 0xDFFF))) eqn:E3.
  { apply count_encode3; unfold utf8.RuneError; lia. }
  destruct (r <=? 0xFFFF) eqn:E4.
  { apply count_encode3; lia. }
  cbn [append].
  rewrite !shiftr_div by lia.
  change (2 ^ 18) with 262144. change (2 ^ 12) with 4096.
  change (2 ^ 6) with 64.
  apply count_4.
  - rewrite cont_byte.
    rewrite (lead_byte utf8.t4 (r / 262144) 3);
      [ | lia | unfold utf8.t4; lia | reflexivity | unfold utf8.t4; simpl; lia
        | simpl; divmod ].
    unfold second_ok4, utf8.t4. divmod.
  - rewrite cont_byte. divmod.
  - rewrite cont_byte. divmod.
Qed.

Lemma count_string_of_runes (runes : list Z) :
  utf8.RuneCountInString (utf8.string_of_runes runes) = len runes.
Proof.
  unfold len.
  induction runes as [| r rest IH].
  - reflexivity.
  - cbn [utf8.string_of_runes List.length].
    rewrite count_EncodeRune, IH. lia.
Qed.

(** The rune count on sample texts: multi-byte characters count once, and
    so does every byte that starts no valid encoding. *)
Example RuneCountInString_contents :
  utf8.RuneCountInString "サプリメント" = 6 /\
  len_string "サプリメント" = 18.
Proof. split; reflexivity. Qed.

Example RuneCountInString_mixed :
  utf8.RuneCountInString
    (utf8.string_of_runes [0x41; 0x3B1; 0x3042; 0x1F600; 0xD800; -1]) = 6.
Proof. reflexivity. Qed.

Example RuneCountInString_invalid_bytes :
  utf8.RuneCountInString
    (String (utf8.to_byte 0xE3) (String (utf8.to_byte 0x81) EmptyString)) = 2.
Proof. reflexivity. Qed.

(** ** Batching *)

Section Chunking.
Context {A : Type}.
Implicit Types (items : list A) (chunks : list (list A)).

Lemma slice_from_ok items (N : Z) :
  0 <= N <= len items ->
  slice_from items N = Returned (skipn (Z.to_nat N) items).
Proof.
  intros H. unfold slice_from.
  destruct ((0 <=? N) && (N <=? len items)) eqn:E; [reflexivity | lia].
Qed.

Lemma slice3_prefix_ok items (N : Z) :
  0 <= N <= len items ->
  slice3 items 0 N N = Returned (firstn (Z.to_nat N) items).
Proof.
  intros H. unfold slice3.
  destruct ((0 <=? 0) && (0 <=? N) && (N <=? N) && (N <=? len items)) eqn:E;
    [ | lia ].
  rewrite Z.sub_0_r. reflexivity.
Qed.

Lemma len_skipn items (N : Z) :
  0 <= N <= len items -> len (skipn (Z.to_nat N) items) = len items - N.
Proof.
  intros H. unfold len in *. rewrite length_skipn. lia.
Qed.

Lemma loop_chunking (N : Z) :
  1 <= N ->
  forall (fuel : nat) items chunks,
    (length items < fuel)%nat ->
    exists cs,
      ChunkShopifyOrders_loop fuel items N chunks = Returned (chunks ++ cs)
      /\ chunking (Z.to_nat N) items cs.
Proof.
  intros HN. induction fuel as [| fuel IH]; intros items chunks Hfuel.
  - lia.
  - cbn [ChunkShopifyOrders_loop].
    destruct (N <? len items) eqn:Eguard.
    + assert (Hrange : 0 <= N <= len items) by lia.
      rewrite slice_from_ok, slice3_prefix_ok by exact Hrange.
      pose proof (len_skipn items N Hrange) as Hlen.
      destruct (IH (skipn (Z.to_nat N) items)
                   (chunks ++ [firstn (Z.to_nat N) items]))
        as (cs & Hrun & Hcat & Hcount & Hnth).
      { unfold len in *. lia. }
      exists (firstn (Z.to_nat N) items :: cs). split; [| split; [| split]].
      * rewrite Hrun, <- app_assoc. reflexivity.
      * cbn [concat]. rewrite Hcat. apply firstn_skipn.
      * unfold len in *. cbn [List.length]. 
        rewrite Nat2Z.inj_succ, Hcount, Hlen. unfold ceil_div.
        rewrite Z2Nat.id by lia.
        replace (Z.of_nat (length items) + N - 1)
          with ((Z.of_nat (length items) - N + N - 1) + 1 * N) by lia.
        rewrite Z.div_add by lia.
        assert (1 <= (Z.of_nat (length items) - N + N - 1) / N).
        { apply Z.div_le_lower_bound; lia. }
        lia.
      * intros [| i] Hi.
        -- reflexivity.
        -- cbn [nth]. cbn [List.length] in Hi.
           rewrite Hnth by lia. rewrite skipn_skipn.
           f_equal. f_equal. lia.
    + exists [items]. split; [| split; [| split]].
      * reflexivity.
      * cbn [concat]. apply app_nil_r.
      * unfold len in *. cbn [List.length]. unfold ceil_div.
        rewrite Z2Nat.id by lia.
        destruct items as [| a items'].
        -- cbn [List.length]. rewrite Z.div_small by lia. reflexivity.
        -- assert ((Z.of_nat (length (a :: items')) + N - 1) / N = 1).
           { symmetry. apply Z.div_unique with (r := Z.of_nat (length (a :: items')) - 1);
               cbn [List.length] in *; lia. }
           lia.
      * intros i Hi. cbn [List.length] in Hi.
        assert (i = 0)%nat by lia. subst i. cbn [nth Nat.mul skipn].
        symmetry. apply firstn_all2. unfold len in *. lia.
Qed.

(** More fuel does not change a run that has already returned. *)
Lemma loop_fuel_mono (N : Z) (fuel : nat) :
  forall items chunks r,
    ChunkShopifyOrders_loop fuel items N chunks = Returned r ->
    forall fuel', (fuel <= fuel')%nat ->
      ChunkShopifyOrders_loop fuel' items N chunks = Returned r.
Proof.
  induction fuel as [| fuel IH]; intros items chunks r Hrun fuel' Hle.
  - discriminate.
  - destruct fuel' as [| fuel']; [lia |].
    cbn [ChunkShopifyOrders_loop] in *.
    destruct (N <? len items); [| exact Hrun].
    destruct (slice_from items N); try discriminate.
    destruct (slice3 items 0 N N); try discriminate.
    apply IH; [exact Hrun | lia].
Qed.

Lemma chunking_lengths (n : nat) items cs :
  (1 <= n)%nat -> items <> [] -> chunking n items cs ->
  len cs = ceil_div (len items) (Z.of_nat n) /\
  (forall i, (S i < length cs)%nat -> length (nth i cs []) = n) /\
  (0 < length (last cs []) <= n)%nat.
Proof.
  intros Hn Hne (Hcat & Hcount & Hnth).
  assert (HL : (0 < length items)%nat)
    by (destruct items; [congruence | cbn; lia]).
  assert (Hq : len cs = ceil_div (len items) (Z.of_nat n)).
  { rewrite Hcount. unfold ceil_div, len in *.
    assert (1 <= (Z.of_nat (length items) + Z.of_nat n - 1) / Z.of_nat n)
      by (apply Z.div_le_lower_bound; lia).
    lia. }
  assert (Hlow : (Z.of_nat (length cs) - 1) * Z.of_nat n < Z.of_nat (length items)).
  { unfold ceil_div, len in Hq. 
    pose proof (Z.mul_div_le (Z.of_nat (length items) + Z.of_nat n - 1) (Z.of_nat n) ltac:(lia)).
    rewrite <- Hq in H. nia. }
  assert (Hhigh : Z.of_nat (length items) <= Z.of_nat (length cs) * Z.of_nat n).
  { unfold ceil_div, len in Hq.
    pose proof (Z.mul_succ_div_gt (Z.of_nat (length items) + Z.of_nat n - 1) (Z.of_nat n) ltac:(lia)).
    rewrite <- Hq in H. nia. }
  split; [exact Hq | split].
  - intros i Hi. rewrite Hnth by lia.
    rewrite length_firstn, length_skipn. nia.
  - assert (Hcs : (0 < length cs)%nat) by (unfold len in Hq; nia).
    assert (Hlast : last cs [] = nth (length cs - 1) cs []).
    { clear - Hcs. induction cs as [| c cs IH]; [cbn in Hcs; lia |].
      destruct cs as [| c' cs]; [reflexivity |].
      change (last (c :: c' :: cs) []) with (last (c' :: cs) []).
      rewrite IH by (cbn; lia). cbn [List.length].
      replace (S (S (length cs)) - 1)%nat with (S (S (length cs) - 1)) by lia.
      reflexivity. }
    rewrite Hlast, Hnth by lia.
    rewrite length_firstn, length_skipn. nia.
Qed.

(** With [chunkSize = 0] and a non-empty input the guard never fails. *)
Lemma loop_zero_diverges (fuel : nat) :
  forall items chunks, items <> [] ->
    ChunkShopifyOrders_loop fuel items 0 chunks = OutOfFuel.
Proof.
  induction fuel as [| fuel IH]; intros items chunks Hne.
  - reflexivity.
  - cbn [ChunkShopifyOrders_loop].
    assert (0 < len items)
      by (destruct items; [congruence | unfold len; cbn [List.length]; lia]).
    destruct (0 <? len items) eqn:E; [| lia].
    rewrite slice_from_ok, slice3_prefix_ok by lia.
    cbn [Z.to_nat skipn]. apply IH. exact Hne.
Qed.

Lemma chunk_step_decreases (N : Z) items items' chunks chunks' :
  chunk_step N (items, chunks) (items', chunks') ->
  0 <= N /\ len items' = len items - N.
Proof.
  intros Hstep. inversion Hstep as [it rest chunk ch Hguard Hrest Hchunk];
    subst.
  unfold slice_from in Hrest.
  destruct ((0 <=? N) && (N <=? len items)) eqn:E; [| discriminate].
  injection Hrest as <-. split; [lia |]. apply len_skipn. lia.
Qed.

(** The fuel-indexed loop performs exactly the steps of [chunk_step]. *)
Lemma loop_unfold_step (N : Z) (fuel : nat) items items' chunks chunks' :
  chunk_step N (items, chunks) (items', chunks') ->
  ChunkShopifyOrders_loop (S fuel) items N chunks
  = ChunkShopifyOrders_loop fuel items' N chunks'.
Proof.
  intros Hstep. inversion Hstep as [it rest chunk ch Hguard Hrest Hchunk];
    subst.
  cbn [ChunkShopifyOrders_loop].
  destruct (N <? len items) eqn:E; [| lia].
  rewrite Hrest, Hchunk. reflexivity.
Qed.

End Chunking.

(** ** Export *)

Section ProgramFacts.
Variable E : Env.

Lemma export_loop_spec (orders : list ShopifyOrder.t) :
  forall (acc : list ClickpostShippingLabel.t) (st : state E),
    export_loop E (map Some orders) acc st
    = Returned (acc ++ accepted_labels orders,
                {| log_lines := log_lines E st ++ diagnostics orders;
                   world := world E st |}).
Proof.
  induction orders as [| o orders IH]; intros acc st.
  - cbn. rewrite !app_nil_r. destruct st; reflexivity.
  - cbn [map export_loop]. unfold bind at 1. cbn [deref ret].
    unfold accepted_labels, diagnostics, accepts in *.
    cbn [filter flat_map].
    destruct (ClickpostShippingLabel.Validate
                (ShopifyOrder.ToClickpostShippingLabel o)) as [reason |].
    + unfold bind, log_Printf. rewrite IH. cbn [log_lines world].
      rewrite <- app_assoc. reflexivity.
    + rewrite IH. cbn [map app]. rewrite <- app_assoc. reflexivity.
Qed.

Lemma Export_spec (filename : string) (orders : list ShopifyOrder.t)
    (st : state E) :
  ExportClickpostShippingLabels E filename (map Some orders) st
  = write_labels E filename (accepted_labels orders)
      {| log_lines := log_lines E st ++ diagnostics orders;
         world := world E st |}.
Proof.
  unfold ExportClickpostShippingLabels, bind.
  rewrite export_loop_spec. reflexivity.
Qed.

Lemma write_labels_returns (filename : string)
    (labels : list ClickpostShippingLabel.t) (st : state E) :
  io_succeeds E ->
  exists st', write_labels E filename labels st = Returned (None, st').
Proof.
  intros (_ & _ & Hcreate & Hmarshal).
  unfold write_labels, bind, lift_world, ret.
  destruct (Hcreate filename (world E st)) as (file & w1 & ->).
  cbn [world log_lines].
  match goal with
  | |- context [gocsv_MarshalFile E labels file ?w] =>
    destruct (Hmarshal labels file w) as (w2 & ->)
  end.
  eexists. reflexivity.
Qed.





End ProgramFacts.

(** ** Validation *)

Ltac validate_cases :=
  unfold ClickpostShippingLabel.Validate, ClickpostShippingLabel.is_empty,
    errors.New;
  repeat match goal with
  | |- context [if ?b then _ else _] => destruct b eqn:?
  end.

Ltac bool_facts :=
  repeat match goal with
  | H : String.eqb _ _ = true |- _ => apply String.eqb_eq in H
  | H : String.eqb _ _ = false |- _ => apply String.eqb_neq in H
  end.

Lemma Validate_None_iff (c : ClickpostShippingLabel.t) :
  ClickpostShippingLabel.Validate c = None <-> all_constraints c.
Proof.
  unfold all_constraints. split.
  - validate_cases; intros H; try discriminate H.
    bool_facts. repeat split; try assumption; lia.
  - intros (Hz & Hn & Hnl & Ha1 & Ha1l & Ha2 & Ha2l & Ha3l & Ha4l & Hcl).
    validate_cases; bool_facts; try reflexivity; try contradiction; lia.
Qed.

Lemma Validate_first_failure (c : ClickpostShippingLabel.t) :
  ClickpostShippingLabel.Validate c = first_failure spec_checks c.
Proof.
  unfold spec_checks, first_failure.
  unfold ClickpostShippingLabel.Validate, ClickpostShippingLabel.is_empty,
    errors.New.
  rewrite !Z.gtb_ltb, !Z.leb_antisym.
  repeat match goal with
  | |- context [String.eqb ?a ?b] => destruct (String.eqb a b)
  | |- context [Z.ltb ?a ?b] => destruct (Z.ltb a b)
  end; reflexivity.
Qed.

(** The first check of a list that fails decides the result. *)
Lemma first_failure_decides {X : Type}
    (pre post : list ((X -> bool) * string)) (holds : X -> bool)
    (msg : string) (x : X) :
  Forall (fun p => fst p x = true) pre ->
  holds x = false ->
  first_failure (pre ++ (holds, msg) :: post) x = Some msg.
Proof.
  induction 1 as [| [h m] pre Hh _ IH]; intros Hfail.
  - cbn. rewrite Hfail. reflexivity.
  - cbn [app first_failure]. cbn [fst] in Hh. rewrite Hh. apply IH, Hfail.
Qed.

Lemma RuneCount_nonempty (s : string) :
  0 < utf8.RuneCountInString s -> s <> ""%string.
Proof. intros H ->. cbn in H. lia. Qed.

(** C3. Validate succeeds exactly when all ten constraints hold; it runs
    the ten checks of the specification in their order, and the first
    check that fails decides the error returned. *)
Theorem Validate_ten_checks_in_order (c : ClickpostShippingLabel.t) :
  (ClickpostShippingLabel.Validate c = None <-> all_constraints c) /\
  ClickpostShippingLabel.Validate c = first_failure spec_checks c /\
  length spec_checks = 10%nat /\
  (forall pre post holds msg,
      spec_checks = pre ++ (holds, msg) :: post ->
      Forall (fun p => fst p c = true) pre ->
      holds c = false ->
      ClickpostShippingLabel.Validate c = Some msg).
Proof.
  split; [apply Validate_None_iff |].
  split; [apply Validate_first_failure |].
  split; [reflexivity |].
  intros pre post holds msg Hsplit Hpre Hfail.
  rewrite Validate_first_failure, Hsplit.
  apply first_failure_decides; assumption.
Qed.

Ltac by_computation :=
  repeat split; try (vm_compute; first [reflexivity | discriminate]).

Lemma Validate_ten_checks_in_order_witness :
  ClickpostShippingLabel.Validate Sample.label_ok = None /\
  ClickpostShippingLabel.Validate
    (Sample.with_name Sample.name21 Sample.label_ok)
  = Some err_name_too_long.
Proof.
  split.
  - apply (proj1 (Validate_ten_checks_in_order Sample.label_ok)).
    unfold all_constraints. by_computation.
  - pose proof (Validate_ten_checks_in_order
                  (Sample.with_name Sample.name21 Sample.label_ok))
      as (_ & _ & _ & Hfirst).
    apply (Hfirst (firstn 2 spec_checks) (skipn 3 spec_checks)
             (fun c => utf8.RuneCountInString
                         (ClickpostShippingLabel.ShippingName c) <=? 20)).
    + reflexivity.
    + repeat constructor.
    + vm_compute. reflexivity.
Defined.

(** ** The field mapping *)

(** C8. The transformer sets address line 1 to region followed by city,
    address line 3 to the source address line 2, address line 4 to the
    empty string, and copies postal code and recipient name. *)
Theorem ToClickpostShippingLabel_fields (s : ShopifyOrder.t) :
  let label := ShopifyOrder.ToClickpostShippingLabel s in
  ClickpostShippingLabel.ShippingAddress1 label
    = (ShopifyOrder.ShippingProvince s ++ ShopifyOrder.ShippingCity s)%string /\
  ClickpostShippingLabel.ShippingAddress3 label
    = ShopifyOrder.ShippingAddress2 s /\
  ClickpostShippingLabel.ShippingAddress4 label = ""%string /\
  ClickpostShippingLabel.ShippingZip label = ShopifyOrder.ShippingZip s /\
  ClickpostShippingLabel.ShippingName label = ShopifyOrder.ShippingName s.
Proof. cbv zeta. repeat split. Qed.

(** C1, as the specification states it, fails: for the scenario order
    (address line 2 empty, province X, city Y, street Z) whose source
    address line 1 is "1-2-3", address line 2 of the label is "Z1-2-3",
    which is neither street followed by the label's address line 1 nor
    "ZXY", and does not end in the label's address line 1 "XY". *)
Lemma ToClickpostShippingLabel_address2_not_street_region_city :
  let s := Sample.order_XYZ in
  let label := ShopifyOrder.ToClickpostShippingLabel s in
  ShopifyOrder.ShippingAddress2 s = ""%string /\
  ShopifyOrder.ShippingProvince s = "X"%string /\
  ShopifyOrder.ShippingCity s = "Y"%string /\
  ShopifyOrder.ShippingStreet s = "Z"%string /\
  ClickpostShippingLabel.ShippingAddress1 label = "XY"%string /\
  ClickpostShippingLabel.ShippingAddress2 label = "Z1-2-3"%string /\
  ClickpostShippingLabel.ShippingAddress2 label
    <> (ShopifyOrder.ShippingStreet s
        ++ ClickpostShippingLabel.ShippingAddress1 label)%string /\
  ClickpostShippingLabel.ShippingAddress2 label <> "ZXY"%string /\
  ~ has_suffix (ClickpostShippingLabel.ShippingAddress2 label)
      (ClickpostShippingLabel.ShippingAddress1 label).
Proof.
  cbv zeta. repeat split; try discriminate.
  intros (pre & Hpre). cbn in Hpre.
  repeat (destruct pre as [| ? pre]; cbn in Hpre; try discriminate Hpre;
          injection Hpre as _ Hpre).
Qed.

Lemma append_assoc (a b c : string) :
  ((a ++ b) ++ c = a ++ (b ++ c))%string.
Proof.
  induction a as [| x a IH]; cbn; [reflexivity | rewrite IH; reflexivity].
Qed.

(** C1, amended. Address line 2 of the label is the source street name
    followed by the source address line 1 (no separator), so it ends in
    the source address line 1; address line 1 of the label is region
    followed by city.  An order with address line 2 empty, province X,
    city Y, street Z and source address line 1 [a] yields address line 1
    "XY", address line 2 "Z" followed by [a], address line 3 empty. *)
Theorem ToClickpostShippingLabel_address2 (s : ShopifyOrder.t) :
  let label := ShopifyOrder.ToClickpostShippingLabel s in
  ClickpostShippingLabel.ShippingAddress2 label
    = (ShopifyOrder.ShippingStreet s ++ ShopifyOrder.ShippingAddress1 s)%string /\
  ClickpostShippingLabel.ShippingAddress1 label
    = (ShopifyOrder.ShippingProvince s ++ ShopifyOrder.ShippingCity s)%string /\
  has_suffix (ClickpostShippingLabel.ShippingAddress2 label)
    (ShopifyOrder.ShippingAddress1 s) /\
  (ShopifyOrder.ShippingAddress2 s = ""%string ->
   ShopifyOrder.ShippingProvince s = "X"%string ->
   ShopifyOrder.ShippingCity s = "Y"%string ->
   ShopifyOrder.ShippingStreet s = "Z"%string ->
   ClickpostShippingLabel.ShippingAddress1 label = "XY"%string /\
   ClickpostShippingLabel.ShippingAddress2 label
     = ("Z" ++ ShopifyOrder.ShippingAddress1 s)%string /\
   ClickpostShippingLabel.ShippingAddress3 label = ""%string).
Proof.
  cbv zeta. split; [reflexivity |]. split; [reflexivity |]. split.
  - exists (ShopifyOrder.ShippingStreet s). reflexivity.
  - intros H2 Hp Hc Hs. cbn. rewrite H2, Hp, Hc, Hs. repeat split.
Qed.

Lemma ToClickpostShippingLabel_address2_witness :
  let label := ShopifyOrder.ToClickpostShippingLabel Sample.order_XYZ in
  ClickpostShippingLabel.ShippingAddress1 label = "XY"%string /\
  ClickpostShippingLabel.ShippingAddress2 label = "Z1-2-3"%string /\
  ClickpostShippingLabel.ShippingAddress3 label = ""%string.
Proof.
  exact (proj2 (proj2 (proj2
           (ToClickpostShippingLabel_address2 Sample.order_XYZ)))
           eq_refl eq_refl eq_refl eq_refl).
Defined.

(** C6. A label with an empty recipient name is rejected whatever its
    other fields hold; a label with an empty address line 2 is rejected;
    a label that meets the constraints on its other fields is accepted
    when address lines 3 and 4 are empty. *)
Theorem Validate_required_and_optional_fields
    (c : ClickpostShippingLabel.t) :
  (ClickpostShippingLabel.ShippingName c = ""%string ->
   ClickpostShippingLabel.Validate c <> None) /\
  (ClickpostShippingLabel.ShippingAddress2 c = ""%string ->
   ClickpostShippingLabel.Validate c <> None) /\
  (ClickpostShippingLabel.ShippingZip c <> ""%string ->
   ClickpostShippingLabel.ShippingName c <> ""%string ->
   utf8.RuneCountInString (ClickpostShippingLabel.ShippingName c) <= 20 ->
   ClickpostShippingLabel.ShippingAddress1 c <> ""%string ->
   utf8.RuneCountInString (ClickpostShippingLabel.ShippingAddress1 c) <= 20 ->
   ClickpostShippingLabel.ShippingAddress2 c <> ""%string ->
   utf8.RuneCountInString (ClickpostShippingLabel.ShippingAddress2 c) <= 20 ->
   utf8.RuneCountInString (ClickpostShippingLabel.ShippingContents c) <= 15 ->
   ClickpostShippingLabel.ShippingAddress3 c = ""%string ->
   ClickpostShippingLabel.ShippingAddress4 c = ""%string ->
   ClickpostShippingLabel.Validate c = None).
Proof.
  split; [| split].
  - intros Hname Hok. apply Validate_None_iff in Hok.
    destruct Hok as (_ & Hn & _). contradiction.
  - intros Ha2 Hok. apply Validate_None_iff in Hok.
    destruct Hok as (_ & _ & _ & _ & _ & Hn & _). contradiction.
  - intros Hz Hn Hnl Ha1 Ha1l Ha2 Ha2l Hcl Ha3 Ha4.
    apply Validate_None_iff. unfold all_constraints.
    rewrite Ha3, Ha4. cbn [utf8.RuneCountInString].
    repeat split; try assumption; lia.
Qed.

Lemma Validate_required_and_optional_fields_witness :
  ClickpostShippingLabel.Validate (Sample.with_name "" Sample.label_ok)
    <> None /\
  ClickpostShippingLabel.Validate (Sample.with_address2 "" Sample.label_ok)
    <> None /\
  ClickpostShippingLabel.ShippingAddress3 Sample.label_ok = ""%string /\
  ClickpostShippingLabel.ShippingAddress4 Sample.label_ok = ""%string /\
  ClickpostShippingLabel.Validate Sample.label_ok = None.
Proof.
  split; [| split; [| split; [| split]]].
  - apply (proj1 (Validate_required_and_optional_fields
                    (Sample.with_name "" Sample.label_ok))).
    reflexivity.
  - apply (proj1 (proj2 (Validate_required_and_optional_fields
                           (Sample.with_address2 "" Sample.label_ok)))).
    reflexivity.
  - reflexivity.
  - reflexivity.
  - apply (proj2 (proj2 (Validate_required_and_optional_fields
                           Sample.label_ok)));
      try reflexivity; vm_compute; discriminate.
Defined.

(** C5. When the recipient name is the UTF-8 text of a sequence of
    characters and the other fields meet their constraints, the name counts
    one per character whatever the number of bytes each occupies; Validate
    rejects the label (name too long) when there are 21 or more characters
    and accepts it when there are exactly 20. *)
Theorem Validate_name_glyph_limit (c : ClickpostShippingLabel.t)
    (runes : list Z) :
  ClickpostShippingLabel.ShippingName c = utf8.string_of_runes runes ->
  other_fields_ok c ->
  utf8.RuneCountInString (ClickpostShippingLabel.ShippingName c) = len runes /\
  (21 <= len runes ->
   ClickpostShippingLabel.Validate c = Some err_name_too_long) /\
  (len runes = 20 -> ClickpostShippingLabel.Validate c = None).
Proof.
  intros Hname (Hz & Ha1 & Ha1l & Ha2 & Ha2l & Ha3l & Ha4l & Hcl).
  assert (Hcount : utf8.RuneCountInString
                     (ClickpostShippingLabel.ShippingName c) = len runes)
    by (rewrite Hname; apply count_string_of_runes).
  split; [exact Hcount | split].
  - intros Hlong.
    assert (Hne : ClickpostShippingLabel.ShippingName c <> ""%string)
      by (apply RuneCount_nonempty; lia).
    rewrite Validate_first_failure.
    apply (first_failure_decides (firstn 2 spec_checks)
             (skipn 3 spec_checks)
             (fun c => utf8.RuneCountInString
                         (ClickpostShippingLabel.ShippingName c) <=? 20)).
    + cbn [firstn spec_checks]. repeat constructor; cbn [fst];
        apply negb_true_iff, String.eqb_neq; assumption.
    + lia.
  - intros Hlen.
    assert (Hne : ClickpostShippingLabel.ShippingName c <> ""%string)
      by (apply RuneCount_nonempty; lia).
    apply Validate_None_iff. unfold all_constraints.
    repeat split; try assumption; lia.
Qed.

Lemma Validate_name_glyph_limit_witness :
  String.length Sample.name21 = 63%nat /\
  ClickpostShippingLabel.Validate
    (Sample.with_name Sample.name21 Sample.label_ok)
  = Some err_name_too_long /\
  String.length Sample.name20 = 60%nat /\
  ClickpostShippingLabel.Validate
    (Sample.with_name Sample.name20 Sample.label_ok) = None.
Proof.
  assert (Hok : forall name,
             other_fields_ok (Sample.with_name name Sample.label_ok)).
  { intros name. unfold other_fields_ok. by_computation. }
  split; [reflexivity | split; [| split; [reflexivity |]]].
  - apply (proj1 (proj2 (Validate_name_glyph_limit
             (Sample.with_name Sample.name21 Sample.label_ok)
             (repeat 0x3042 21) eq_refl (Hok _)))).
    vm_compute. discriminate.
  - apply (proj2 (proj2 (Validate_name_glyph_limit
             (Sample.with_name Sample.name20 Sample.label_ok)
             (repeat 0x3042 20) eq_refl (Hok _)))).
    reflexivity.
Defined.

(** C9. On a label built by the transformer, address line 4 is empty
    (0 characters) and contents is the fixed literal of 6 characters, so
    the address-line-4 and contents checks never fail: validation returns
    success or one of the errors of the postal code, name and address line
    1, 2, 3 checks. *)
Theorem Validate_transformed_label_errors (s : ShopifyOrder.t) :
  let label := ShopifyOrder.ToClickpostShippingLabel s in
  ClickpostShippingLabel.ShippingAddress4 label = ""%string /\
  utf8.RuneCountInString (ClickpostShippingLabel.ShippingAddress4 label) = 0 /\
  ClickpostShippingLabel.ShippingContents label = "サプリメント"%string /\
  utf8.RuneCountInString (ClickpostShippingLabel.ShippingContents label) = 6 /\
  ClickpostShippingLabel.Validate label <> Some err_address4_too_long /\
  ClickpostShippingLabel.Validate label <> Some err_contents_too_long /\
  In (ClickpostShippingLabel.Validate label)
     [ None; Some err_zip_required; Some err_name_required;
       Some err_name_too_long; Some err_address1_required;
       Some err_address1_too_long; Some err_address2_required;
       Some err_address2_too_long; Some err_address3_too_long ].
Proof.
  cbv zeta.
  split; [reflexivity |]. split; [reflexivity |].
  split; [reflexivity |]. split; [reflexivity |].
  assert (Hin : In (ClickpostShippingLabel.Validate
                      (ShopifyOrder.ToClickpostShippingLabel s))
     [ None; Some err_zip_required; Some err_name_required;
       Some err_name_too_long; Some err_address1_required;
       Some err_address1_too_long; Some err_address2_required;
       Some err_address2_too_long; Some err_address3_too_long ]).
  { unfold ClickpostShippingLabel.Validate, errors.New.
    cbn [ShopifyOrder.ToClickpostShippingLabel
           ClickpostShippingLabel.ShippingZip
           ClickpostShippingLabel.ShippingName
           ClickpostShippingLabel.ShippingAddress1
           ClickpostShippingLabel.ShippingAddress2
           ClickpostShippingLabel.ShippingAddress3
           ClickpostShippingLabel.ShippingAddress4
           ClickpostShippingLabel.ShippingContents].
    change (utf8.RuneCountInString "" >? 20) with false.
    change (utf8.RuneCountInString "サプリメント" >? 15) with false.
    cbv beta iota.
    repeat match goal with
    | |- context [if ?b then _ else _] => destruct b
    end; cbn [In]; tauto. }
  split; [| split; [| exact Hin]].
  - intros Heq. rewrite Heq in Hin. cbn [In] in Hin.
    repeat (destruct Hin as [Hin | Hin]; [discriminate Hin |]). exact Hin.
  - intros Heq. rewrite Heq in Hin. cbn [In] in Hin.
    repeat (destruct Hin as [Hin | Hin]; [discriminate Hin |]). exact Hin.
Qed.

(** ** Batching: the claims *)

Lemma ceil_div_spec (a b q : Z) :
  0 < b -> (ceil_div a b = q <-> (q - 1) * b < a <= q * b).
Proof.
  intros Hb. unfold ceil_div. split.
  - intros <-. Z.div_mod_to_equations. nia.
  - intros H. symmetry. apply Z.div_unique with (r := a + b - 1 - b * q); lia.
Qed.

Lemma ChunkShopifyOrders_returns {A : Type} (items : list A) (N : Z) :
  1 <= N ->
  exists chunks,
    (forall fuel, (length items < fuel)%nat ->
       ChunkShopifyOrders fuel items N = Returned chunks) /\
    chunking (Z.to_nat N) items chunks.
Proof.
  intros HN.
  destruct (loop_chunking N HN (S (length items)) items [] (Nat.lt_succ_diag_r _))
    as (cs & Hrun & Hchunking).
  exists cs. split; [| exact Hchunking].
  intros fuel Hfuel. unfold ChunkShopifyOrders.
  apply (loop_fuel_mono N (S (length items))); [exact Hrun | lia].
Qed.

(** C2. For a chunk size N >= 1 and a non-empty input of length L,
    ChunkShopifyOrders returns ceil(L/N) chunks; chunk i is the contiguous
    slice of the input that starts at i*N; every chunk but the last has
    length N, the last has a length between 1 and N; the chunks
    concatenated in order are the input. *)
Theorem ChunkShopifyOrders_partition {A : Type} (items : list A) (N : Z) :
  1 <= N -> items <> [] ->
  exists chunks,
    (forall fuel, (length items < fuel)%nat ->
       ChunkShopifyOrders fuel items N = Returned chunks) /\
    len chunks = ceil_div (len items) N /\
    concat chunks = items /\
    (forall i, (i < length chunks)%nat ->
       nth i chunks [] = firstn (Z.to_nat N) (skipn (i * Z.to_nat N) items)) /\
    (forall i, (S i < length chunks)%nat -> len (nth i chunks []) = N) /\
    0 < len (last chunks []) <= N.
Proof.
  intros HN Hne.
  destruct (ChunkShopifyOrders_returns items N HN) as (chunks & Hrun & Hch).
  exists chunks. split; [exact Hrun |].
  destruct (chunking_lengths (Z.to_nat N) items chunks ltac:(lia) Hne Hch)
    as (Hq & Hfull & Hlast).
  rewrite Z2Nat.id in Hq by lia.
  destruct Hch as (Hcat & _ & Hnth).
  split; [exact Hq |]. split; [exact Hcat |]. split; [exact Hnth |].
  split.
  - intros i Hi. unfold len. rewrite Hfull by exact Hi. lia.
  - unfold len. lia.
Qed.

Lemma ChunkShopifyOrders_partition_witness :
  1 <= 2 /\ [1; 2; 3; 4; 5]%nat <> [] /\
  exists chunks,
    ChunkShopifyOrders 6 [1; 2; 3; 4; 5]%nat 2 = Returned chunks /\
    len chunks = ceil_div 5 2 /\
    concat chunks = [1; 2; 3; 4; 5]%nat /\
    0 < len (last chunks []) <= 2.
Proof.
  split; [lia |]. split; [discriminate |].
  destruct (ChunkShopifyOrders_partition [1; 2; 3; 4; 5]%nat 2
              ltac:(lia) ltac:(discriminate))
    as (chunks & Hrun & Hcount & Hcat & _ & _ & Hlast).
  exists chunks. split; [apply Hrun; simpl; lia |].
  split; [exact Hcount |]. split; [exact Hcat | exact Hlast].
Defined.

(** C7. For a chunk size N >= 1, ChunkShopifyOrders on the empty input
    returns exactly one chunk, which is empty. *)
Theorem ChunkShopifyOrders_empty_input {A : Type} (N : Z) (fuel : nat) :
  1 <= N ->
  ChunkShopifyOrders (S fuel) (@nil A) N = Returned [[]].
Proof.
  intros HN. unfold ChunkShopifyOrders. cbn [ChunkShopifyOrders_loop].
  change (len (@nil A)) with 0.
  destruct (N <? 0) eqn:E; [lia | reflexivity].
Qed.

Lemma ChunkShopifyOrders_empty_input_witness :
  1 <= 40 /\
  ChunkShopifyOrders 1 (@nil ShopifyOrder.t) 40 = Returned [[]].
Proof.
  split; [lia |].
  apply (ChunkShopifyOrders_empty_input 40 0). lia.
Defined.

(** C10. With a chunk size N >= 1 ChunkShopifyOrders returns on every
    input, within (length of the input) + 1 evaluations of the loop guard,
    because every iteration shortens the remaining input by exactly N; with
    N = 0 and a non-empty input the loop is never left, whatever the number
    of iterations allowed, every iteration leaving the input as it was. *)
Theorem ChunkShopifyOrders_terminates {A : Type} (items : list A) (N : Z) :
  (1 <= N ->
   exists chunks, forall fuel, (length items < fuel)%nat ->
     ChunkShopifyOrders fuel items N = Returned chunks) /\
  (1 <= N ->
   forall chunks items' chunks',
     chunk_step N (items, chunks) (items', chunks') ->
     len items' = len items - N /\ len items' < len items) /\
  (forall fuel chunks items' chunks',
     chunk_step N (items, chunks) (items', chunks') ->
     ChunkShopifyOrders_loop (S fuel) items N chunks
     = ChunkShopifyOrders_loop fuel items' N chunks') /\
  (N = 0 -> items <> [] ->
   (forall fuel, ChunkShopifyOrders fuel items N = OutOfFuel) /\
   (forall chunks, chunk_step N (items, chunks) (items, chunks ++ [[]]))).
Proof.
  split; [| split; [| split]].
  - intros HN.
    destruct (ChunkShopifyOrders_returns items N HN) as (chunks & Hrun & _).
    exists chunks. exact Hrun.
  - intros HN chunks items' chunks' Hstep.
    destruct (chunk_step_decreases N items items' chunks chunks' Hstep)
      as (_ & Hlen).
    split; [exact Hlen | lia].
  - intros fuel chunks items' chunks' Hstep.
    apply loop_unfold_step, Hstep.
  - intros -> Hne. split.
    + intros fuel. apply loop_zero_diverges, Hne.
    + intros chunks.
      assert (0 < len items)
        by (destruct items; [congruence | unfold len; cbn [length]; lia]).
      apply (chunk_step_intro 0 items items [] chunks).
      * assumption.
      * rewrite slice_from_ok by lia. reflexivity.
      * rewrite slice3_prefix_ok by lia. reflexivity.
Qed.

Lemma ChunkShopifyOrders_terminates_witness :
  (1 <= 2 /\
   exists chunks, forall fuel, (3 < fuel)%nat ->
     ChunkShopifyOrders fuel [1; 2; 3]%nat 2 = Returned chunks) /\
  (1 <= 2 /\
   chunk_step 2 ([1; 2; 3]%nat, []) ([3]%nat, [[1; 2]%nat]) /\
   len [3]%nat = len [1; 2; 3]%nat - 2) /\
  (0 = 0 /\ [1; 2; 3]%nat <> [] /\
   forall fuel, ChunkShopifyOrders fuel [1; 2; 3]%nat 0 = OutOfFuel).
Proof.
  assert (Hstep : chunk_step 2 ([1; 2; 3]%nat, []) ([3]%nat, [[1; 2]%nat])).
  { apply (chunk_step_intro 2 [1; 2; 3]%nat [3]%nat [1; 2]%nat []).
    - unfold len. simpl. lia.
    - reflexivity.
    - reflexivity. }
  split; [| split].
  - split; [lia |].
    exact (proj1 (ChunkShopifyOrders_terminates [1; 2; 3]%nat 2)
             ltac:(lia)).
  - split; [lia |]. split; [exact Hstep |].
    exact (proj1 (proj1 (proj2
             (ChunkShopifyOrders_terminates [1; 2; 3]%nat 2))
             ltac:(lia) [] [3]%nat [[1; 2]%nat] Hstep)).
  - split; [reflexivity |]. split; [discriminate |].
    exact (proj1 (proj2 (proj2 (proj2
             (ChunkShopifyOrders_terminates [1; 2; 3]%nat 0)))
             eq_refl ltac:(discriminate))).
Defined.

(** ** Export: the claims *)





(** [write_labels] writes no diagnostic. *)
Lemma write_labels_log (E : Env) (filename : string)
    (labels : list ClickpostShippingLabel.t) (st st' : state E) (e : error) :
  write_labels E filename labels st = Returned (e, st') ->
  log_lines E st' = log_lines E st.
Proof.
  unfold write_labels, bind, lift_world, ret.
  destruct (os_Create E filename (world E st)) as [[file | err] w1].
  - cbn [world log_lines].
    destruct (gocsv_MarshalFile E labels file _) as [e' w2].
    intros H. injection H as _ <-. reflexivity.
  - intros H. injection H as _ <-. reflexivity.
Qed.




Example main_on_sample :
  main Sample.env 4 Sample.st0
  = Returned (tt,
      {| log_lines := [diagnostic "#1002" err_name_too_long];
         world :=
           ([("clickpost-shipping-labels-0.csv"%string,
              [ShopifyOrder.ToClickpostShippingLabel Sample.order_ok;
               ShopifyOrder.ToClickpostShippingLabel Sample.order_name20])]
            : World Sample.env) |}).
Proof. vm_compute. reflexivity. Qed.

(** * Further properties of the program *)

(** ** Batching: edge cases and bounds *)

Section ChunkingMore.
Context {A : Type}.
Implicit Types (items : list A) (chunks : list (list A)).

Lemma ChunkShopifyOrders_returned_chunking items (N : Z) (fuel : nat) chunks :
  1 <= N ->
  ChunkShopifyOrders fuel items N = Returned chunks ->
  chunking (Z.to_nat N) items chunks.
Proof.
  intros HN Hrun.
  destruct (ChunkShopifyOrders_returns items N HN) as (cs & Hall & Hch).
  pose proof (Hall (Nat.max fuel (S (length items))) ltac:(lia)) as Hbig.
  unfold ChunkShopifyOrders in *.
  rewrite (loop_fuel_mono N fuel items [] chunks Hrun _ (Nat.le_max_l _ _))
    in Hbig.
  injection Hbig as ->. exact Hch.
Qed.

Lemma chunking_bounded (n : nat) items chunks :
  chunking n items chunks ->
  Forall (fun c => (length c <= n)%nat) chunks.
Proof.
  intros (_ & _ & Hnth). apply Forall_forall. intros c Hin.
  destruct (In_nth chunks c [] Hin) as (i & Hi & <-).
  rewrite Hnth by exact Hi. apply firstn_le_length.
Qed.

Lemma chunking_nonempty (n : nat) items chunks :
  (1 <= n)%nat -> items <> [] -> chunking n items chunks ->
  Forall (fun c => c <> []) chunks.
Proof.
  intros Hn Hne Hch.
  destruct (chunking_lengths n items chunks Hn Hne Hch)
    as (Hq & Hfull & Hlast).
  destruct Hch as (_ & _ & Hnth).
  apply Forall_forall. intros c Hin.
  destruct (In_nth chunks c [] Hin) as (i & Hi & <-).
  destruct (Nat.eq_dec (S i) (length chunks)) as [Heq | Hneq].
  - assert (Hl : last chunks [] = nth i chunks []).
    { clear - Heq. revert i Heq.
      induction chunks as [| c cs IH]; intros i Heq; [discriminate |].
      destruct cs as [| c' cs].
      - cbn in Heq. assert (i = 0)%nat by lia. subst. reflexivity.
      - destruct i as [| i]; [cbn in Heq; lia |].
        change (last (c :: c' :: cs) []) with (last (c' :: cs) []).
        cbn [nth]. apply IH. cbn in *. lia. }
    rewrite <- Hl. intros Hnil. rewrite Hnil in Hlast. cbn in Hlast. lia.
  - intros Hnil. pose proof (Hfull i ltac:(lia)) as Hlen.
    rewrite Hnil in Hlen. cbn in Hlen. lia.
Qed.

End ChunkingMore.

(** X1. A negative chunk size makes the first slice expression panic. *)
Theorem ChunkShopifyOrders_negative_size_panics {A : Type}
    (items : list A) (chunkSize : Z) (fuel : nat) :
  chunkSize < 0 ->
  ChunkShopifyOrders (S fuel) items chunkSize = Panicked.
Proof.
  intros Hneg. unfold ChunkShopifyOrders. cbn [ChunkShopifyOrders_loop].
  assert (0 <= len items) by (unfold len; lia).
  destruct (chunkSize <? len items) eqn:E; [| lia].
  unfold slice_from.
  destruct ((0 <=? chunkSize) && (chunkSize <=? len items)) eqn:E2; [lia |].
  reflexivity.
Qed.

Lemma ChunkShopifyOrders_negative_size_panics_witness :
  -1 < 0 /\ ChunkShopifyOrders 1 [1; 2; 3]%nat (-1) = Panicked.
Proof.
  split; [lia |].
  apply (ChunkShopifyOrders_negative_size_panics [1; 2; 3]%nat (-1) 0). lia.
Defined.

(** X2. An input no longer than the chunk size comes back as one chunk, the
    input itself; for a chunk size of at least 1 that is the only case in
    which a single chunk is returned. *)
Theorem ChunkShopifyOrders_single_chunk {A : Type}
    (items : list A) (chunkSize : Z) :
  (len items <= chunkSize ->
   forall fuel, ChunkShopifyOrders (S fuel) items chunkSize
                = Returned [items]) /\
  (1 <= chunkSize ->
   forall fuel chunk,
     ChunkShopifyOrders fuel items chunkSize = Returned [chunk] ->
     len items <= chunkSize /\ chunk = items).
Proof.
  split.
  - intros Hle fuel. unfold ChunkShopifyOrders.
    cbn [ChunkShopifyOrders_loop].
    destruct (chunkSize <? len items) eqn:E; [lia | reflexivity].
  - intros HN fuel chunk Hrun.
    pose proof (ChunkShopifyOrders_returned_chunking _ _ _ _ HN Hrun)
      as (Hcat & Hcount & _).
    cbn [concat] in Hcat. rewrite app_nil_r in Hcat.
    split; [| exact Hcat].
    change (len [chunk]) with 1 in Hcount.
    rewrite Z2Nat.id in Hcount by lia.
    assert (Hc : ceil_div (len items) chunkSize <= 1) by lia.
    unfold ceil_div in Hc.
    assert (len items + chunkSize - 1 < 2 * chunkSize).
    { destruct (Z.lt_ge_cases (len items + chunkSize - 1) (2 * chunkSize))
        as [Hlt | Hge]; [exact Hlt |].
      assert (2 <= (len items + chunkSize - 1) / chunkSize)
        by (apply Z.div_le_lower_bound; lia).
      lia. }
    lia.
Qed.

Lemma ChunkShopifyOrders_single_chunk_witness :
  (len [1; 2; 3]%nat <= 40 /\
   ChunkShopifyOrders 1 [1; 2; 3]%nat 40 = Returned [[1; 2; 3]%nat]) /\
  (1 <= 40 /\ len [1; 2; 3]%nat <= 40).
Proof.
  assert (Hrun : ChunkShopifyOrders 1 [1; 2; 3]%nat 40
                 = Returned [[1; 2; 3]%nat]).
  { apply (proj1 (ChunkShopifyOrders_single_chunk [1; 2; 3]%nat 40)).
    unfold len. simpl. lia. }
  split.
  - split; [unfold len; simpl; lia | exact Hrun].
  - split; [lia |].
    apply (proj2 (ChunkShopifyOrders_single_chunk [1; 2; 3]%nat 40)
             ltac:(lia) 1%nat [1; 2; 3]%nat Hrun).
Defined.

(** X3. An input longer than the chunk size N but no longer than 2N is cut
    in two after its first N items, in one iteration of the loop. *)
Theorem ChunkShopifyOrders_two_chunks {A : Type}
    (items : list A) (N : Z) (fuel : nat) :
  1 <= N -> N < len items <= 2 * N ->
  ChunkShopifyOrders (S (S fuel)) items N
  = Returned [firstn (Z.to_nat N) items; skipn (Z.to_nat N) items].
Proof.
  intros HN Hlen. unfold ChunkShopifyOrders.
  cbn [ChunkShopifyOrders_loop].
  destruct (N <? len items) eqn:E; [| lia].
  rewrite slice_from_ok, slice3_prefix_ok by lia.
  rewrite len_skipn by lia.
  destruct (N <? len items - N) eqn:E2; [lia | reflexivity].
Qed.

Lemma ChunkShopifyOrders_two_chunks_witness :
  1 <= 2 /\ 2 < len [1; 2; 3]%nat <= 2 * 2 /\
  ChunkShopifyOrders 2 [1; 2; 3]%nat 2 = Returned [[1; 2]; [3]]%nat.
Proof.
  assert (Hlen : 2 < len [1; 2; 3]%nat <= 2 * 2) by (unfold len; simpl; lia).
  split; [lia |]. split; [exact Hlen |].
  exact (ChunkShopifyOrders_two_chunks [1; 2; 3]%nat 2 0 ltac:(lia) Hlen).
Defined.

(** X4. For a chunk size N >= 1 and any input, empty or not, whatever
    ChunkShopifyOrders returns has no chunk longer than N, concatenates to
    the input, and holds an empty chunk only when the input is empty. *)
Theorem ChunkShopifyOrders_chunks_bounded {A : Type}
    (items : list A) (N : Z) (fuel : nat) (chunks : list (list A)) :
  1 <= N ->
  ChunkShopifyOrders fuel items N = Returned chunks ->
  Forall (fun c => len c <= N) chunks /\
  concat chunks = items /\
  chunks <> [] /\
  (In [] chunks -> items = []).
Proof.
  intros HN Hrun.
  pose proof (ChunkShopifyOrders_returned_chunking _ _ _ _ HN Hrun) as Hch.
  split; [| split; [| split]].
  - pose proof (chunking_bounded _ _ _ Hch) as Hb.
    eapply Forall_impl; [| exact Hb]. cbn. intros c Hc. unfold len. lia.
  - apply Hch.
  - destruct Hch as (_ & Hcount & _). intros ->. cbn in Hcount. lia.
  - intros Hin. destruct items as [| a items]; [reflexivity |].
    assert (Hne : a :: items <> []) by discriminate.
    pose proof (chunking_nonempty (Z.to_nat N) _ _ ltac:(lia) Hne Hch) as Hall.
    rewrite Forall_forall in Hall. exfalso. exact (Hall [] Hin eq_refl).
Qed.

Lemma ChunkShopifyOrders_chunks_bounded_witness :
  1 <= 2 /\
  ChunkShopifyOrders 4 [1; 2; 3]%nat 2 = Returned [[1; 2]; [3]]%nat /\
  Forall (fun c => len c <= 2) [[1; 2]; [3]]%nat.
Proof.
  split; [lia |]. split; [reflexivity |].
  apply (ChunkShopifyOrders_chunks_bounded [1; 2; 3]%nat 2 4
           [[1; 2]; [3]]%nat ltac:(lia) eq_refl).
Defined.

Lemma len_map {A B : Type} (f : A -> B) (l : list A) : len (map f l) = len l.
Proof. unfold len. rewrite length_map. reflexivity. Qed.

Lemma ChunkShopifyOrders_loop_map {A B : Type} (f : A -> B) (N : Z)
    (fuel : nat) :
  forall (items : list A) (chunks : list (list A)),
    ChunkShopifyOrders_loop fuel (map f items) N (map (map f) chunks)
    = map_outcome (map (map f)) (ChunkShopifyOrders_loop fuel items N chunks).
Proof.
  induction fuel as [| fuel IH]; intros items chunks.
  - reflexivity.
  - cbn [ChunkShopifyOrders_loop]. rewrite len_map.
    destruct (N <? len items); [| cbn; rewrite map_app; reflexivity].
    unfold slice_from, slice3. rewrite len_map.
    destruct ((0 <=? N) && (N <=? len items)); [| reflexivity].
    destruct ((0 <=? 0) && (0 <=? N) && (N <=? N) && (N <=? len items));
      [| reflexivity].
    rewrite <- IH. rewrite map_app. cbn [map].
    rewrite !skipn_map, !firstn_map. reflexivity.
Qed.

(** Batching looks only at positions: batching the images of the items
    under any function gives the images of the batches, with the same
    outcome (return, panic or divergence). *)
Lemma ChunkShopifyOrders_map {A B : Type} (f : A -> B)
    (items : list A) (N : Z) (fuel : nat) :
  ChunkShopifyOrders fuel (map f items) N
  = map_outcome (map (map f)) (ChunkShopifyOrders fuel items N).
Proof.
  unfold ChunkShopifyOrders.
  apply (ChunkShopifyOrders_loop_map f N fuel items []).
Qed.

(** ** Export: outcomes *)




Lemma write_labels_create_fails (E : Env) (filename : string)
    (labels : list ClickpostShippingLabel.t) (st : state E)
    (err : string) (w1 : World E) :
  os_Create E filename (world E st) = (inr err, w1) ->
  write_labels E filename labels st
  = Returned (Some err, {| log_lines := log_lines E st; world := w1 |}).
Proof.
  intros Hcreate. unfold write_labels, bind, lift_world, ret.
  rewrite Hcreate. reflexivity.
Qed.

Lemma write_labels_created (E : Env) (filename : string)
    (labels : list ClickpostShippingLabel.t) (st : state E)
    (file : File E) (w1 w3 : World E) (e : error) :
  os_Create E filename (world E st) = (inl file, w1) ->
  gocsv_MarshalFile E labels file
    (gocsv_SetCSVWriter E {| UseCRLF := true; encoder := ShiftJIS |} w1)
  = (e, w3) ->
  write_labels E filename labels st
  = Returned (e, {| log_lines := log_lines E st;
                    world := File_Close E file w3 |}).
Proof.
  intros Hcreate Hmarshal. unfold write_labels, bind, lift_world, ret.
  rewrite Hcreate. cbn [world log_lines]. rewrite Hmarshal. reflexivity.
Qed.

(** X6. What the export of a batch of records does, case by case.  The
    diagnostics of the rejected orders are logged first.  If the file
    cannot be created the export returns that error and marshals nothing.
    Otherwise the writer is set to CRLF line ends and Shift_JIS, the
    accepted labels are marshalled, the file is closed whether marshalling
    failed or not, and the marshaller's result is returned as it is. *)
Theorem Export_outcome (E : Env) (filename : string)
    (orders : list ShopifyOrder.t) (st : state E) :
  (forall err w1,
     os_Create E filename (world E st) = (inr err, w1) ->
     ExportClickpostShippingLabels E filename (map Some orders) st
     = Returned (Some err,
                 {| log_lines := log_lines E st ++ diagnostics orders;
                    world := w1 |})) /\
  (forall file w1 e w3,
     os_Create E filename (world E st) = (inl file, w1) ->
     gocsv_MarshalFile E (accepted_labels orders) file
       (gocsv_SetCSVWriter E {| UseCRLF := true; encoder := ShiftJIS |} w1)
     = (e, w3) ->
     ExportClickpostShippingLabels E filename (map Some orders) st
     = Returned (e,
                 {| log_lines := log_lines E st ++ diagnostics orders;
                    world := File_Close E file w3 |})).
Proof.
  split.
  - intros err w1 Hcreate. rewrite Export_spec.
    apply (write_labels_create_fails E filename (accepted_labels orders)
             {| log_lines := log_lines E st ++ diagnostics orders;
                world := world E st |} err w1).
    exact Hcreate.
  - intros file w1 e w3 Hcreate Hmarshal. rewrite Export_spec.
    apply (write_labels_created E filename (accepted_labels orders)
             {| log_lines := log_lines E st ++ diagnostics orders;
                world := world E st |} file w1 w3 e).
    + exact Hcreate.
    + exact Hmarshal.
Qed.

Lemma Export_outcome_witness :
  ExportClickpostShippingLabels Sample.env "out.csv"
    (map Some Sample.orders) Sample.st0
  = Returned (None,
      {| log_lines := [] ++ diagnostics Sample.orders;
         world := ([("out.csv"%string, accepted_labels Sample.orders)]
                   : World Sample.env) |}).
Proof.
  exact (proj2 (Export_outcome Sample.env "out.csv" Sample.orders Sample.st0)
           "out.csv"%string [] None _ eq_refl eq_refl).
Defined.

Lemma accepted_labels_length_le (orders : list ShopifyOrder.t) :
  (length (accepted_labels orders) <= length orders)%nat.
Proof.
  unfold accepted_labels. rewrite length_map. apply filter_length_le.
Qed.



Lemma append_nonempty (a b : string) :
  (a ++ b)%string <> ""%string <-> a <> ""%string \/ b <> ""%string.
Proof.
  destruct a as [| x a]; cbn.
  - split; [intros H; right; exact H | intros [H | H]; [congruence | exact H]].
  - split; [intros _; left; discriminate | intros _; discriminate].
Qed.

Lemma transformed_constraints (o : ShopifyOrder.t) :
  all_constraints (ShopifyOrder.ToClickpostShippingLabel o)
  <-> source_constraints o.
Proof.
  unfold all_constraints, source_constraints.
  cbn [ShopifyOrder.ToClickpostShippingLabel
         ClickpostShippingLabel.ShippingZip
         ClickpostShippingLabel.ShippingName
         ClickpostShippingLabel.ShippingAddress1
         ClickpostShippingLabel.ShippingAddress2
         ClickpostShippingLabel.ShippingAddress3
         ClickpostShippingLabel.ShippingAddress4
         ClickpostShippingLabel.ShippingContents].
  rewrite !append_nonempty.
  change (utf8.RuneCountInString "") with 0.
  change (utf8.RuneCountInString "サプリメント") with 6.
  intuition lia.
Qed.

Lemma accepts_true_iff (o : ShopifyOrder.t) :
  accepts o = true
  <-> ClickpostShippingLabel.Validate
        (ShopifyOrder.ToClickpostShippingLabel o) = None.
Proof.
  unfold accepts.
  destruct (ClickpostShippingLabel.Validate
              (ShopifyOrder.ToClickpostShippingLabel o));
    split; intros H; first [reflexivity | discriminate H].
Qed.

(** X9. Which orders are accepted, in terms of the source fields: postal
    code and name present, name of at most 20 characters, province or city
    present and together at most 20 characters, street or address line 1
    present and together at most 20 characters, address line 2 of at most
    20 characters.  The order identifier plays no part. *)
Theorem accepts_iff (o : ShopifyOrder.t) :
  accepts o = true <->
  ShopifyOrder.ShippingZip o <> ""%string /\
  ShopifyOrder.ShippingName o <> ""%string /\
  utf8.RuneCountInString (ShopifyOrder.ShippingName o) <= 20 /\
  (ShopifyOrder.ShippingProvince o <> ""%string \/
   ShopifyOrder.ShippingCity o <> ""%string) /\
  utf8.RuneCountInString
    (ShopifyOrder.ShippingProvince o ++ ShopifyOrder.ShippingCity o) <= 20 /\
  (ShopifyOrder.ShippingStreet o <> ""%string \/
   ShopifyOrder.ShippingAddress1 o <> ""%string) /\
  utf8.RuneCountInString
    (ShopifyOrder.ShippingStreet o ++ ShopifyOrder.ShippingAddress1 o) <= 20 /\
  utf8.RuneCountInString (ShopifyOrder.ShippingAddress2 o) <= 20.
Proof.
  rewrite accepts_true_iff, Validate_None_iff.
  apply transformed_constraints.
Qed.

(** ** Validation: errors and lengths *)

Ltac unfold_errors :=
  unfold err_zip_required, err_name_required, err_name_too_long,
    err_address1_required, err_address1_too_long, err_address2_required,
    err_address2_too_long, err_address3_too_long, err_address4_too_long,
    err_contents_too_long.

(** X10. The error returned names the rule that failed: each of the ten
    messages is returned exactly when its check is the first to fail. *)
Theorem Validate_error_identifies_rule (c : ClickpostShippingLabel.t) :
  let count := utf8.RuneCountInString in
  let zip := ClickpostShippingLabel.ShippingZip c in
  let name := ClickpostShippingLabel.ShippingName c in
  let a1 := ClickpostShippingLabel.ShippingAddress1 c in
  let a2 := ClickpostShippingLabel.ShippingAddress2 c in
  let a3 := ClickpostShippingLabel.ShippingAddress3 c in
  let a4 := ClickpostShippingLabel.ShippingAddress4 c in
  let contents := ClickpostShippingLabel.ShippingContents c in
  let ok2 := zip <> ""%string /\ name <> ""%string /\ count name <= 20 in
  let ok4 := ok2 /\ a1 <> ""%string /\ count a1 <= 20 in
  let ok6 := ok4 /\ a2 <> ""%string /\ count a2 <= 20 in
  (ClickpostShippingLabel.Validate c = Some err_zip_required
   <-> zip = ""%string) /\
  (ClickpostShippingLabel.Validate c = Some err_name_required
   <-> zip <> ""%string /\ name = ""%string) /\
  (ClickpostShippingLabel.Validate c = Some err_name_too_long
   <-> zip <> ""%string /\ name <> ""%string /\ 20 < count name) /\
  (ClickpostShippingLabel.Validate c = Some err_address1_required
   <-> ok2 /\ a1 = ""%string) /\
  (ClickpostShippingLabel.Validate c = Some err_address1_too_long
   <-> ok2 /\ a1 <> ""%string /\ 20 < count a1) /\
  (ClickpostShippingLabel.Validate c = Some err_address2_required
   <-> ok4 /\ a2 = ""%string) /\
  (ClickpostShippingLabel.Validate c = Some err_address2_too_long
   <-> ok4 /\ a2 <> ""%string /\ 20 < count a2) /\
  (ClickpostShippingLabel.Validate c = Some err_address3_too_long
   <-> ok6 /\ 20 < count a3) /\
  (ClickpostShippingLabel.Validate c = Some err_address4_too_long
   <-> ok6 /\ count a3 <= 20 /\ 20 < count a4) /\
  (ClickpostShippingLabel.Validate c = Some err_contents_too_long
   <-> ok6 /\ count a3 <= 20 /\ count a4 <= 20 /\ 15 < count contents).
Proof.
  cbv zeta. unfold_errors.
  validate_cases; bool_facts;
    repeat match goal with
    | |- _ /\ _ => split
    | |- _ <-> _ => split
    end;
    (let Hside := fresh "Hside" in
     intros Hside;
     first [ discriminate Hside
           | solve [repeat split; first [assumption | lia]]
           | solve [exfalso; intuition (try congruence; try lia)] ]).
Qed.

(** ** Bytes and characters *)

Lemma RuneCount_bounds_upto (n : nat) :
  forall s : string, (String.length s <= n)%nat ->
    utf8.RuneCountInString s <= len_string s <= 4 * utf8.RuneCountInString s.
Proof.
  induction n as [| n IH]; intros s Hlen.
  - destruct s; [cbn; lia | cbn in Hlen; lia].
  - destruct s as [| c0 r1]; [cbn; lia |].
    cbn [String.length] in Hlen.
    cbn [utf8.RuneCountInString]. cbv zeta.
    repeat match goal with
    | |- context [if ?b then _ else _] => destruct b
    | |- context [match ?r with EmptyString => _ | String _ _ => _ end] =>
      is_var r; destruct r; cbn [String.length] in Hlen
    end;
    match goal with
    | |- context [utf8.RuneCountInString ?x] =>
      pose proof (IH x ltac:(cbn [String.length]; lia))
    end;
    rewrite ?len_string_cons in *; lia.
Qed.

(** A text has at least as many bytes as characters and at most four
    times as many. *)
Lemma RuneCount_bounds (s : string) :
  utf8.RuneCountInString s <= len_string s <= 4 * utf8.RuneCountInString s.
Proof. apply (RuneCount_bounds_upto (String.length s)). lia. Qed.

Lemma len_string_pos (s : string) : s <> ""%string -> 0 < len_string s.
Proof. destruct s; [congruence | intros _; rewrite len_string_cons; pose proof (len_string_nonneg s); lia]. Qed.

Lemma len_string_append (a b : string) :
  len_string (a ++ b) = len_string a + len_string b.
Proof.
  induction a as [| x a IH]; [cbn; reflexivity |].
  cbn [append]. rewrite !len_string_cons, IH. lia.
Qed.

(** X11. Acceptance in bytes.  An order is rejected as soon as its name,
    its province and city together, its street and address line 1
    together, or its address line 2 take more than 80 bytes; an order whose
    required fields are present is accepted when each of these takes at
    most 20 bytes. *)
Theorem accepts_byte_bounds (o : ShopifyOrder.t) :
  (80 < len_string (ShopifyOrder.ShippingName o) \/
   80 < len_string (ShopifyOrder.ShippingProvince o)
        + len_string (ShopifyOrder.ShippingCity o) \/
   80 < len_string (ShopifyOrder.ShippingStreet o)
        + len_string (ShopifyOrder.ShippingAddress1 o) \/
   80 < len_string (ShopifyOrder.ShippingAddress2 o) ->
   accepts o = false) /\
  (ShopifyOrder.ShippingZip o <> ""%string ->
   0 < len_string (ShopifyOrder.ShippingName o) <= 20 ->
   0 < len_string (ShopifyOrder.ShippingProvince o)
       + len_string (ShopifyOrder.ShippingCity o) <= 20 ->
   0 < len_string (ShopifyOrder.ShippingStreet o)
       + len_string (ShopifyOrder.ShippingAddress1 o) <= 20 ->
   len_string (ShopifyOrder.ShippingAddress2 o) <= 20 ->
   accepts o = true).
Proof.
  pose proof (RuneCount_bounds (ShopifyOrder.ShippingName o)) as Bn.
  pose proof (RuneCount_bounds
                (ShopifyOrder.ShippingProvince o ++ ShopifyOrder.ShippingCity o))
    as B1.
  pose proof (RuneCount_bounds
                (ShopifyOrder.ShippingStreet o
                 ++ ShopifyOrder.ShippingAddress1 o)) as B2.
  pose proof (RuneCount_bounds (ShopifyOrder.ShippingAddress2 o)) as B3.
  rewrite len_string_append in B1, B2.
  split.
  - intros Hlong. apply not_true_is_false. intros Hacc.
    apply accepts_true_iff, Validate_None_iff, transformed_constraints in Hacc.
    destruct Hacc as (_ & _ & Hn & _ & H1 & _ & H2 & H3). lia.
  - intros Hz Hn H1 H2 H3.
    apply accepts_true_iff, Validate_None_iff, transformed_constraints.
    unfold source_constraints.
    assert (Hpos : forall s, 0 < len_string s -> s <> ""%string).
    { intros s Hs ->. cbn in Hs. lia. }
    assert (Hor : forall a b, 0 < len_string a + len_string b ->
                    a <> ""%string \/ b <> ""%string).
    { intros a b Hs. destruct a; [right | left; discriminate].
      apply Hpos. cbn in Hs. lia. }
    repeat split; try assumption; try lia.
    + apply Hpos. lia.
    + apply Hor. lia.
    + apply Hor. lia.
Qed.

Lemma count_runes_append (runes : list Z) (s : string) :
  utf8.RuneCountInString (utf8.string_of_runes runes ++ s)
  = len runes + utf8.RuneCountInString s.
Proof.
  unfold len. induction runes as [| r runes IH].
  - reflexivity.
  - cbn [utf8.string_of_runes length]. rewrite append_assoc.
    rewrite count_EncodeRune, IH. lia.
Qed.

(** X12. When province and street are well-formed UTF-8 text, the
    character counts of the label's address lines 1 and 2 are the sums of
    the counts of the two source fields each is built from. *)
Theorem ToClickpostShippingLabel_address_counts (o : ShopifyOrder.t)
    (province street : list Z) :
  ShopifyOrder.ShippingProvince o = utf8.string_of_runes province ->
  ShopifyOrder.ShippingStreet o = utf8.string_of_runes street ->
  let label := ShopifyOrder.ToClickpostShippingLabel o in
  utf8.RuneCountInString (ClickpostShippingLabel.ShippingAddress1 label)
  = utf8.RuneCountInString (ShopifyOrder.ShippingProvince o)
    + utf8.RuneCountInString (ShopifyOrder.ShippingCity o) /\
  utf8.RuneCountInString (ClickpostShippingLabel.ShippingAddress2 label)
  = utf8.RuneCountInString (ShopifyOrder.ShippingStreet o)
    + utf8.RuneCountInString (ShopifyOrder.ShippingAddress1 o).
Proof.
  intros Hp Hs. cbv zeta.
  cbn [ShopifyOrder.ToClickpostShippingLabel
         ClickpostShippingLabel.ShippingAddress1
         ClickpostShippingLabel.ShippingAddress2].
  rewrite Hp, Hs, !count_runes_append, !count_string_of_runes.
  split; reflexivity.
Qed.

Lemma ToClickpostShippingLabel_address_counts_witness :
  let label := ShopifyOrder.ToClickpostShippingLabel Sample.order_ok in
  utf8.RuneCountInString (ClickpostShippingLabel.ShippingAddress1 label)
  = 3 + 3 /\
  utf8.RuneCountInString (ClickpostShippingLabel.ShippingAddress2 label)
  = 2 + 5.
Proof.
  exact (ToClickpostShippingLabel_address_counts Sample.order_ok
           [0x6771; 0x4EAC; 0x90FD] [0x795E; 0x5357] eq_refl eq_refl).
Defined.

(** Without well-formedness the counts need not add up: a lead byte at the
    end of one field and the continuation bytes at the start of the next
    join into one character. *)
Example RuneCountInString_not_additive :
  let a := String (utf8.to_byte 0xE3) EmptyString in
  let b := String (utf8.to_byte 0x81) (String (utf8.to_byte 0x82) EmptyString) in
  utf8.RuneCountInString a = 1 /\ utf8.RuneCountInString b = 2 /\
  utf8.RuneCountInString (a ++ b) = 1.
Proof. repeat split. Qed.

(** ** File names *)

Lemma append_inj_l (p a b : string) :
  (p ++ a)%string = (p ++ b)%string -> a = b.
Proof.
  induction p as [| x p IH]; cbn; intros H; [exact H |].
  injection H as H. apply IH, H.
Qed.

Lemma append_inj_r (a b suffix : string) :
  (a ++ suffix)%string = (b ++ suffix)%string -> a = b.
Proof.
  revert b. induction a as [| x a IH]; intros b H.
  - destruct b as [| y b]; [reflexivity |].
    apply (f_equal len_string) in H. cbn [append] in H.
    rewrite len_string_cons, len_string_append in H.
    pose proof (len_string_nonneg b). lia.
  - destruct b as [| y b].
    + apply (f_equal len_string) in H. cbn [append] in H.
      rewrite len_string_cons, len_string_append in H.
      pose proof (len_string_nonneg a). lia.
    + cbn [append] in H. injection H as -> H. f_equal. apply IH, H.
Qed.

(** X13. Different batch indices give different file names, so no batch
    overwrites the file of another. *)
Theorem label_filename_injective (i j : nat) :
  label_filename i = label_filename j -> i = j.
Proof.
  unfold label_filename. intros H.
  apply append_inj_l, append_inj_r in H.
  apply (f_equal NilEmpty.uint_of_string) in H.
  rewrite !NilEmpty.usu in H. injection H as H.
  apply (f_equal Nat.of_uint) in H.
  rewrite !DecimalNat.Unsigned.of_to in H. exact H.
Qed.

Lemma label_filename_injective_witness :
  label_filename 0 = "clickpost-shipping-labels-0.csv"%string /\
  label_filename 12 = "clickpost-shipping-labels-12.csv"%string /\
  (label_filename 7 = label_filename (3 + 4) -> 7 = 3 + 4)%nat.
Proof.
  split; [reflexivity | split; [reflexivity |]].
  exact (label_filename_injective 7 (3 + 4)).
Defined.

(** ** The whole run *)

Section MainFacts.
Variable E : Env.

Lemma Import_returns (st : state E) (file : File E) (w1 w2 : World E)
    (r : list (ptr ShopifyOrder.t) * error) :
  os_Open E "shopify-orders.csv" (world E st) = (inl file, w1) ->
  gocsv_UnmarshalFile E file w1 = (r, w2) ->
  ImportShopifyOrders E "shopify-orders.csv" st
  = Returned (match snd r with
              | Some err => ([], Some err)
              | None => (fst r, None)
              end,
              {| log_lines := log_lines E st;
                 world := File_Close E file w2 |}).
Proof.
  intros Hopen Hunm.
  unfold ImportShopifyOrders, bind, lift_world, ret.
  rewrite Hopen. cbn [world log_lines]. rewrite Hunm.
  cbn [world log_lines]. destruct (snd r); reflexivity.
Qed.

Lemma diagnostics_app (a b : list ShopifyOrder.t) :
  diagnostics (a ++ b) = diagnostics a ++ diagnostics b.
Proof. unfold diagnostics. apply flat_map_app. Qed.

Lemma main_loop_log (chunks : list (list ShopifyOrder.t)) :
  io_succeeds E ->
  forall i st, exists st',
    main_loop E i (map (map Some) chunks) st = Returned (tt, st') /\
    log_lines E st' = log_lines E st ++ diagnostics (concat chunks).
Proof.
  intros Hio. induction chunks as [| c chunks IH]; intros i st.
  - exists st. split; [reflexivity |]. cbn. rewrite app_nil_r. reflexivity.
  - cbn [map main_loop]. unfold bind at 1. rewrite Export_spec.
    match goal with
    | |- context [write_labels E ?f ?l ?s] =>
      destruct (write_labels_returns E f l s Hio) as (st1 & Hw);
      pose proof (write_labels_log E f l s st1 None Hw) as Hlog;
      rewrite Hw
    end.
    destruct (IH (S i) st1) as (st' & Hrun & Hlog').
    exists st'. split; [exact Hrun |].
    rewrite Hlog', Hlog. cbn [log_lines concat].
    rewrite diagnostics_app, app_assoc. reflexivity.
Qed.

End MainFacts.

(** X14. [main] panics when the import fails: when the input file cannot be
    opened, and when it is opened but cannot be parsed.  No batch is
    exported. *)
Theorem main_panics_when_import_fails (E : Env) (fuel : nat) (st : state E) :
  (forall err w1,
     os_Open E "shopify-orders.csv" (world E st) = (inr err, w1) ->
     main E fuel st = Panicked) /\
  (forall file w1 orders err w2,
     os_Open E "shopify-orders.csv" (world E st) = (inl file, w1) ->
     gocsv_UnmarshalFile E file w1 = ((orders, Some err), w2) ->
     main E fuel st = Panicked).
Proof.
  split.
  - intros err w1 Hopen.
    unfold main, ImportShopifyOrders, bind, lift_world, ret.
    rewrite Hopen. reflexivity.
  - intros file w1 orders err w2 Hopen Hunm.
    unfold main, bind at 1.
    rewrite (Import_returns E st file w1 w2 _ Hopen Hunm). reflexivity.
Qed.

(** X15. When the import succeeds and no file operation fails, [main]
    returns, and the diagnostics it has logged are those of all imported
    orders, in the order of the input file, batch boundaries leaving no
    trace. *)
Theorem main_logs_every_rejected_order (E : Env) (st : state E)
    (file : File E) (w1 w2 : World E) (orders : list ShopifyOrder.t)
    (fuel : nat) :
  io_succeeds E ->
  os_Open E "shopify-orders.csv" (world E st) = (inl file, w1) ->
  gocsv_UnmarshalFile E file w1 = ((map Some orders, None), w2) ->
  (length orders < fuel)%nat ->
  exists st',
    main E fuel st = Returned (tt, st') /\
    log_lines E st' = log_lines E st ++ diagnostics orders.
Proof.
  intros Hio Hopen Hunm Hfuel.
  unfold main, bind at 1.
  rewrite (Import_returns E st file w1 w2 _ Hopen Hunm). cbn [snd fst].
  unfold bind. rewrite ChunkShopifyOrders_map.
  assert (Hmax : 1 <= maxClickpostShippingLabels)
    by (unfold maxClickpostShippingLabels; lia).
  destruct (ChunkShopifyOrders_returns orders _ Hmax)
    as (chunks & Hrun & Hcat & _).
  rewrite (Hrun fuel Hfuel). cbn [map_outcome lift_outcome].
  match goal with
  | |- context [main_loop E 0 _ ?s] =>
    destruct (main_loop_log E chunks Hio 0%nat s) as (st' & Hloop & Hlog)
  end.
  exists st'. split; [exact Hloop |].
  rewrite Hlog, Hcat. reflexivity.
Qed.

(** X16. [main] always writes a first file, even when no order was
    imported: if that file cannot be created, [main] panics. *)
Theorem main_panics_when_first_file_fails (E : Env) (st : state E)
    (file : File E) (w1 w2 w3 : World E) (orders : list ShopifyOrder.t)
    (err : string) (fuel : nat) :
  os_Open E "shopify-orders.csv" (world E st) = (inl file, w1) ->
  gocsv_UnmarshalFile E file w1 = ((map Some orders, None), w2) ->
  os_Create E "clickpost-shipping-labels-0.csv" (File_Close E file w2)
  = (inr err, w3) ->
  (length orders < fuel)%nat ->
  main E fuel st = Panicked.
Proof.
  intros Hopen Hunm Hcreate Hfuel.
  unfold main, bind at 1.
  rewrite (Import_returns E st file w1 w2 _ Hopen Hunm). cbn [snd fst].
  unfold bind at 1. rewrite ChunkShopifyOrders_map.
  assert (Hmax : 1 <= maxClickpostShippingLabels)
    by (unfold maxClickpostShippingLabels; lia).
  destruct (ChunkShopifyOrders_returns orders _ Hmax)
    as (chunks & Hrun & _ & Hcount & _).
  rewrite (Hrun fuel Hfuel). cbn [map_outcome lift_outcome].
  destruct chunks as [| c chunks]; [cbn in Hcount; lia |].
  cbn [map main_loop]. unfold bind at 1.
  change (label_filename 0) with "clickpost-shipping-labels-0.csv"%string.
  match goal with
  | |- context [ExportClickpostShippingLabels E ?f ?l ?s] =>
    change (ExportClickpostShippingLabels E f l s)
      with (ExportClickpostShippingLabels E f (map Some c) s);
    rewrite Export_spec;
    rewrite (write_labels_create_fails E f (accepted_labels c)
               {| log_lines := log_lines E s ++ diagnostics c;
                  world := world E s |} err w3 Hcreate)
  end.
  reflexivity.
Qed.

Lemma Recording_io_succeeds (input : list ShopifyOrder.t) :
  io_succeeds (Recording.env input).
Proof.
  unfold io_succeeds. cbn. split; [| split; [| split]].
  - intros f w. exists f, w. reflexivity.
  - intros file w. exists input, w. reflexivity.
  - intros f w. exists f, w. reflexivity.
  - intros labels file w. eexists. reflexivity.
Qed.

Lemma main_panics_when_import_fails_witness :
  main (Recording.env_with Recording.missing_input Sample.orders) 4
    (Recording.start Recording.missing_input Sample.orders) = Panicked /\
  main (Recording.env_with Recording.malformed_input Sample.orders) 4
    (Recording.start Recording.malformed_input Sample.orders) = Panicked.
Proof.
  split.
  - exact (proj1 (main_panics_when_import_fails
                    (Recording.env_with Recording.missing_input Sample.orders)
                    4 (Recording.start Recording.missing_input Sample.orders))
             "no such file"%string [] eq_refl).
  - exact (proj2 (main_panics_when_import_fails
                    (Recording.env_with Recording.malformed_input
                       Sample.orders)
                    4 (Recording.start Recording.malformed_input
                         Sample.orders))
             "shopify-orders.csv"%string [] [] "wrong header"%string []
             eq_refl eq_refl).
Defined.

Lemma main_logs_every_rejected_order_witness :
  exists st',
    main (Recording.env Sample.orders) 4
      (Recording.start Recording.no_faults Sample.orders)
    = Returned (tt, st') /\
    log_lines _ st' = [] ++ [diagnostic "#1002" err_name_too_long].
Proof.
  exact (main_logs_every_rejected_order (Recording.env Sample.orders)
           (Recording.start Recording.no_faults Sample.orders)
           "shopify-orders.csv"%string [] [] Sample.orders 4
           (Recording_io_succeeds Sample.orders) eq_refl eq_refl
           ltac:(simpl; lia)).
Defined.

Lemma main_panics_when_first_file_fails_witness :
  main (Recording.env_with Recording.read_only []) 1
    (Recording.start Recording.read_only []) = Panicked.
Proof.
  exact (main_panics_when_first_file_fails
           (Recording.env_with Recording.read_only [])
           (Recording.start Recording.read_only [])
           "shopify-orders.csv"%string [] [] [] []
           "read-only file system"%string 1 eq_refl eq_refl eq_refl
           ltac:(simpl; lia)).
Defined.

Lemma main_loop_recording (input : list ShopifyOrder.t)
    (chunks : list (list ShopifyOrder.t)) :
  forall i (st : state (Recording.env input)),
    main_loop (Recording.env input) i (map (map Some) chunks) st
    = Returned (tt,
        {| log_lines := log_lines _ st ++ diagnostics (concat chunks);
           world := (world _ st ++ batch_files i chunks
                     : World (Recording.env input)) |}).
Proof.
  induction chunks as [| c chunks IH]; intros i st.
  - cbn. rewrite !app_nil_r. destruct st; reflexivity.
  - cbn [map main_loop]. unfold bind at 1.
    rewrite Export_spec.
    rewrite (write_labels_created (Recording.env input) (label_filename i)
               (accepted_labels c)
               {| log_lines := log_lines _ st ++ diagnostics c;
                  world := world _ st |}
               (label_filename i) (world _ st)
               (world _ st ++ [(label_filename i, accepted_labels c)]) None
               eq_refl eq_refl).
    rewrite IH. cbn [log_lines world concat batch_files File_Close Recording.env Recording.env_with].
    rewrite diagnostics_app, <- !app_assoc. reflexivity.
Qed.

Lemma batch_files_bounded (n : nat) (chunks : list (list ShopifyOrder.t)) :
  Forall (fun c => (length c <= n)%nat) chunks ->
  forall i,
    Forall (fun f => (length (snd f) <= n)%nat) (batch_files i chunks).
Proof.
  induction 1 as [| c chunks Hc _ IH]; intros i; cbn [batch_files].
  - constructor.
  - constructor; [| apply IH]. cbn [snd].
    pose proof (accepted_labels_length_le c). lia.
Qed.

Lemma accepted_labels_app (a b : list ShopifyOrder.t) :
  accepted_labels (a ++ b) = accepted_labels a ++ accepted_labels b.
Proof.
  unfold accepted_labels. rewrite filter_app, map_app. reflexivity.
Qed.

Lemma batch_files_labels (chunks : list (list ShopifyOrder.t)) :
  forall i,
    concat (map snd (batch_files i chunks)) = accepted_labels (concat chunks).
Proof.
  induction chunks as [| c chunks IH]; intros i; [reflexivity |].
  cbn [batch_files map snd concat].
  rewrite IH, accepted_labels_app. reflexivity.
Qed.

Lemma batch_files_names (chunks : list (list ShopifyOrder.t)) :
  forall i,
    map fst (batch_files i chunks)
    = map label_filename (seq i (length chunks)).
Proof.
  induction chunks as [| c chunks IH]; intros i; [reflexivity |].
  cbn [batch_files map fst length seq]. rewrite IH. reflexivity.
Qed.

(** X17. The whole run on a file system that records what is marshalled and
    never fails: [main] returns; it has marshalled one file per batch of
    [ChunkShopifyOrders], in order, the file of batch [i] being named with
    [i] and holding the accepted labels of that batch, at most 40; the
    files put end to end hold the accepted labels of the whole input in
    input order; and the diagnostics of all orders have been logged. *)
Theorem main_writes_one_file_per_batch (input : list ShopifyOrder.t)
    (fuel : nat) :
  (length input < fuel)%nat ->
  exists chunks,
    ChunkShopifyOrders fuel input 40 = Returned chunks /\
    main (Recording.env input) fuel (Recording.start Recording.no_faults input)
    = Returned (tt,
        {| log_lines := diagnostics input;
           world := (batch_files 0 chunks : World (Recording.env input)) |}) /\
    map fst (batch_files 0 chunks)
    = map label_filename (seq 0 (length chunks)) /\
    Forall (fun f => (length (snd f) <= 40)%nat) (batch_files 0 chunks) /\
    concat (map snd (batch_files 0 chunks)) = accepted_labels input.
Proof.
  intros Hfuel.
  destruct (ChunkShopifyOrders_returns input 40 ltac:(lia))
    as (chunks & Hrun & Hch).
  exists chunks. split; [apply Hrun, Hfuel |].
  split; [| split; [| split]].
  - unfold main, bind at 1.
    rewrite (Import_returns (Recording.env input)
               (Recording.start Recording.no_faults input)
               "shopify-orders.csv"%string [] [] (map Some input, None)
               eq_refl eq_refl).
    cbn [snd fst]. unfold bind.
    rewrite ChunkShopifyOrders_map.
    change maxClickpostShippingLabels with 40.
    rewrite (Hrun fuel Hfuel). cbn [map_outcome lift_outcome].
    rewrite main_loop_recording.
    destruct Hch as (Hcat & _). rewrite Hcat. reflexivity.
  - apply batch_files_names.
  - apply batch_files_bounded.
    exact (chunking_bounded (Z.to_nat 40) input chunks Hch).
  - rewrite batch_files_labels. destruct Hch as (Hcat & _).
    rewrite Hcat. reflexivity.
Qed.

Lemma main_writes_one_file_per_batch_witness :
  exists chunks,
    ChunkShopifyOrders 4 Sample.orders 40 = Returned chunks /\
    main (Recording.env Sample.orders) 4
      (Recording.start Recording.no_faults Sample.orders)
    = Returned (tt,
        {| log_lines := diagnostics Sample.orders;
           world := (batch_files 0 chunks
                     : World (Recording.env Sample.orders)) |}) /\
    map fst (batch_files 0 chunks)
    = map label_filename (seq 0 (length chunks)) /\
    Forall (fun f => (length (snd f) <= 40)%nat) (batch_files 0 chunks) /\
    concat (map snd (batch_files 0 chunks)) = accepted_labels Sample.orders.
Proof.
  exact (main_writes_one_file_per_batch Sample.orders 4 ltac:(simpl; lia)).
Defined.

Lemma accepts_byte_bounds_witness :
  accepts Sample.order_XYZ = true /\
  accepts (ShopifyOrder.mk "#1005"
             (utf8.string_of_runes (repeat 0x3042 27))
             "Z" "1-2-3" "" "Y" "100" "X") = false.
Proof.
  split.
  - apply (proj2 (accepts_byte_bounds Sample.order_XYZ));
      first [discriminate | vm_compute; split; [reflexivity | discriminate]
            | vm_compute; discriminate].
  - apply (proj1 (accepts_byte_bounds _)). left. vm_compute. reflexivity.
Defined.
